(** * Agent process bridge: a shallow embedding of
      [cutesy-agent-router-refactor.py]

    The development follows the layout of the Python module: the string
    primitives of the language the module relies on, its regular
    expressions, [PTYAgent] (output processing, [send_command],
    [get_output]) and [AgentChatBridge] (command and message handlers and
    the output monitor).  Stateful code is written in explicit
    state-passing style; everything the module obtains from the operating
    system (the result of a terminal write, the clock, what the reader
    thread saw while a handler slept) is an explicit input. *)

From Stdlib Require Import String Ascii.
From Stdlib Require Import List NArith ZArith Bool Lia.
Local Open Scope list_scope.
Import ListNotations.

(* ================================================================== *)
(** * Python strings *)
(* ================================================================== *)

Module Py.

(** A [str] is a sequence of Unicode code points; [len] is [length]. *)
Definition pystr := list N.

(** A [bytes] object, one [N] below 256 per byte. *)
Definition bytes := list N.

(** ASCII literals of the source are written as Rocq strings. *)
Definition lit (s : string) : pystr :=
  map N_of_ascii (list_ascii_of_string s).

Definition between (lo hi c : N) : bool := (lo <=? c)%N && (c <=? hi)%N.

(** [str.isspace] on one code point ([Py_UNICODE_ISSPACE]); also the
    class [\s] of the [re] module on [str] patterns. *)
Definition is_space (c : N) : bool :=
  between 9 13 c || between 28 31 c || (c =? 32)%N || (c =? 133)%N
  || (c =? 160)%N || (c =? 5760)%N || between 8192 8202 c
  || (c =? 8232)%N || (c =? 8233)%N || (c =? 8239)%N || (c =? 8287)%N
  || (c =? 12288)%N.

Fixpoint eqb (a b : pystr) : bool :=
  match a, b with
  | [], [] => true
  | x :: a', y :: b' => (x =? y)%N && eqb a' b'
  | _, _ => false
  end.

Fixpoint lstrip (s : pystr) : pystr :=
  match s with
  | [] => []
  | c :: s' => if is_space c then lstrip s' else s
  end.

Definition rstrip (s : pystr) : pystr := rev (lstrip (rev s)).

(** [s.strip()] *)
Definition strip (s : pystr) : pystr := rstrip (lstrip s).

Fixpoint startswith (s prefix : pystr) : bool :=
  match prefix, s with
  | [], _ => true
  | p :: prefix', c :: s' => (p =? c)%N && startswith s' prefix'
  | _ :: _, [] => false
  end.

(** [needle in hay] on strings. *)
Fixpoint contains (hay needle : pystr) : bool :=
  startswith hay needle
  || match hay with
     | [] => false
     | _ :: hay' => contains hay' needle
     end.

(** [x in l] for a list of strings. *)
Definition mem (x : pystr) (l : list pystr) : bool := existsb (eqb x) l.

(** [s.split(sep)] for a one-character separator; [acc] holds the current
    field reversed. *)
Fixpoint split_chr (sep : N) (acc s : pystr) : list pystr :=
  match s with
  | [] => [rev acc]
  | c :: s' =>
      if (c =? sep)%N then rev acc :: split_chr sep [] s'
      else split_chr sep (c :: acc) s'
  end.

Definition flush (acc : pystr) : list pystr :=
  match acc with [] => [] | _ => [rev acc] end.

(** [s.split()]: fields separated by runs of whitespace, none empty. *)
Fixpoint split_ws (acc s : pystr) : list pystr :=
  match s with
  | [] => flush acc
  | c :: s' =>
      if is_space c then flush acc ++ split_ws [] s'
      else split_ws (c :: acc) s'
  end.

(** [sep.join(l)] *)
Fixpoint join (sep : pystr) (l : list pystr) : pystr :=
  match l with
  | [] => []
  | [x] => x
  | x :: l' => x ++ sep ++ join sep l'
  end.

(** [list(dict.fromkeys(l))]: first occurrences, in order. *)
Fixpoint fromkeys (seen l : list pystr) : list pystr :=
  match l with
  | [] => []
  | x :: l' =>
      if mem x seen then fromkeys seen l' else x :: fromkeys (x :: seen) l'
  end.

(** UTF-8 of one code point; surrogates and values that are no code
    point have no encoding ([UnicodeEncodeError]). *)
Definition encode_char (c : N) : option bytes :=
  if (c <? 128)%N then Some [c]
  else if (c <? 2048)%N then Some [192 + c / 64; 128 + c mod 64]%N
  else if between 55296 57343 c then None
  else if (c <? 65536)%N then
    Some [224 + c / 4096; 128 + (c / 64) mod 64; 128 + c mod 64]%N
  else if (c <? 1114112)%N then
    Some [240 + c / 262144; 128 + (c / 4096) mod 64;
          128 + (c / 64) mod 64; 128 + c mod 64]%N
  else None.

(** [s.encode()] *)
Fixpoint encode (s : pystr) : option bytes :=
  match s with
  | [] => Some []
  | c :: s' =>
      match encode_char c, encode s' with
      | Some b, Some bs => Some (b ++ bs)
      | _, _ => None
      end
  end.

(** A [collections.deque] with [maxlen]: the list holds the items from
    left to right.  [append] on a full deque discards the leftmost item,
    [appendleft] the rightmost one. *)
Definition deque_append {A} (maxlen : nat) (q : list A) (x : A) : list A :=
  if length q <? maxlen then q ++ [x] else tl q ++ [x].

Definition deque_appendleft {A} (maxlen : nat) (x : A) (q : list A) : list A :=
  if length q <? maxlen then x :: q else removelast (x :: q).

End Py.

Import Py.

(* ================================================================== *)
(** * Regular expressions ([re]) *)
(* ================================================================== *)

Module Re.

(** The fragment of the pattern language the module uses.  [Chr p] is a
    one-character item (literal, class, [.], [\s]); [Eos] is [$]. *)
Inductive regex : Type :=
| Eps : regex
| Chr : (N -> bool) -> regex
| Seq : regex -> regex -> regex
| Alt : regex -> regex -> regex
| Star : regex -> regex
| Eos : regex.

(** Backtracking matcher in continuation-passing style, with the
    priorities of [re]: the left alternative first, stars greedy.  [k]
    receives what is left of the subject; a star iteration that consumes
    nothing is not repeated. *)
Fixpoint run {A} (r : regex) (s : pystr) (k : pystr -> option A) : option A :=
  match r with
  | Eps => k s
  | Chr p =>
      match s with
      | c :: s' => if p c then k s' else None
      | [] => None
      end
  | Seq r1 r2 => run r1 s (fun s' => run r2 s' k)
  | Alt r1 r2 =>
      match run r1 s k with
      | Some x => Some x
      | None => run r2 s k
      end
  | Star r' =>
      (fix star (fuel : nat) (s : pystr) {struct fuel} : option A :=
         match fuel with
         | O => k s
         | S fuel' =>
             match run r' s (fun s' =>
                     if length s' <? length s then star fuel' s' else None)
             with
             | Some x => Some x
             | None => k s
             end
         end) (length s) s
  | Eos =>
      (* end of string, or just before a newline that ends the string *)
      match s with
      | [] => k s
      | [c] => if (c =? 10)%N then k s else None
      | _ => None
      end
  end.

(** [re.match(r, s)]: what follows the match, if there is one. *)
Definition match_prefix (r : regex) (s : pystr) : option pystr :=
  run r s (fun rest => Some rest).

(** [bool(re.match(r, s))] *)
Definition matches (r : regex) (s : pystr) : bool :=
  match match_prefix r s with Some _ => true | None => false end.

(** [bool(re.search(r, s))]: a match starting at some position. *)
Fixpoint search (r : regex) (s : pystr) : bool :=
  matches r s
  || match s with
     | [] => false
     | _ :: s' => search r s'
     end.

(** [re.sub] with an empty replacement, for a pattern that matches no
    empty string: the leftmost matches are removed one after the other.  The recursion
    continues on what follows a match, which is shorter than the subject;
    [fuel] bounds the number of steps. *)
Fixpoint remove_all (fuel : nat) (r : regex) (s : pystr) : pystr :=
  match fuel with
  | O => s
  | S fuel' =>
      match s with
      | [] => []
      | c :: s' =>
          match match_prefix r s with
          | Some rest =>
              if length rest <? length s then remove_all fuel' r rest
              else c :: remove_all fuel' r s'
          | None => c :: remove_all fuel' r s'
          end
      end
  end.

Definition sub_empty (r : regex) (s : pystr) : pystr :=
  remove_all (length s) r s.

(** Pattern builders. *)
Definition chr (c : N) : regex := Chr (N.eqb c).
Definition range (lo hi : N) : regex := Chr (between lo hi).
Definition dot : regex := Chr (fun c => negb (c =? 10)%N).
Definition space : regex := Chr is_space.
Definition plus (r : regex) : regex := Seq r (Star r).

Fixpoint seq_of (rs : list regex) : regex :=
  match rs with
  | [] => Eps
  | [r] => r
  | r :: rs' => Seq r (seq_of rs')
  end.

(** One literal character under [re.IGNORECASE] on a [str] pattern.  The
    subject character is lowered and compared with the lowered literal;
    besides [A-Z], the code points whose lowercase is an ASCII letter are
    U+0130 (to [i]) and U+212A (to [k]), and the case-fix table of the
    [re] compiler adds U+0131 for [i] and U+017F for [s]. *)
Definition ascii_lower (c : N) : N :=
  if between 65 90 c then (c + 32)%N else c.

Definition sre_lower (c : N) : N :=
  if (c =? 304)%N then 105%N
  else if (c =? 8490)%N then 107%N
  else ascii_lower c.

Definition chr_ci (p : N) : regex :=
  Chr (fun c =>
         (sre_lower c =? ascii_lower p)%N
         || ((ascii_lower p =? 105)%N && (c =? 305)%N)
         || ((ascii_lower p =? 115)%N && (c =? 383)%N)).

(** A literal run of the pattern, case-insensitive. *)
Definition lit_ci (s : string) : regex := seq_of (map chr_ci (lit s)).

End Re.

Import Re.

(* ================================================================== *)
(** * Effects *)
(* ================================================================== *)

(** What a call does to the outside world, in the order it happens.  The
    [Call_*] events record that a method of the agent was entered. *)
Inductive event : Type :=
| OsWrite (fd : Z) (data : bytes)        (* os.write(fd, data) returned *)
| ReplyText (text : pystr)               (* update.message.reply_text(text) *)
| BotSend (chat_id : Z) (text : pystr)   (* app.bot.send_message(...) *)
| CreateTask                             (* asyncio.create_task(self._output_monitor()) *)
| Call_send_command (command : pystr)
| Call_start
| Call_stop.

(** State and event log threaded through the methods of an object [S]. *)
Definition M (S A : Type) : Type := S -> A * S * list event.

Definition ret {S A} (a : A) : M S A := fun s => (a, s, []).

Definition bind {S A B} (m : M S A) (f : A -> M S B) : M S B :=
  fun s =>
    let '(a, s1, e1) := m s in
    let '(b, s2, e2) := f a s1 in
    (b, s2, e1 ++ e2).

Definition gets {S A} (f : S -> A) : M S A := fun s => (f s, s, []).
Definition modify {S} (f : S -> S) : M S unit := fun s => (tt, f s, []).
Definition emit {S} (e : event) : M S unit := fun s => (tt, s, [e]).

(** Run a method of a component stored in a field of [S]. *)
Definition zoom {S T A} (get : S -> T) (set : T -> S -> S) (m : M T A) : M S A :=
  fun s => let '(a, t, e) := m (get s) in (a, set t s, e).

Declare Scope m_scope.
Delimit Scope m_scope with m.
Notation "x <- m ;; k" := (bind m (fun x => k))
  (at level 61, m at next level, right associativity) : m_scope.
Notation "m ;; k" := (bind m (fun _ => k))
  (at level 61, right associativity) : m_scope.
Local Open Scope m_scope.

Definition result {S A} (r : A * S * list event) : A := fst (fst r).
Definition state {S A} (r : A * S * list event) : S := snd (fst r).
Definition events {S A} (r : A * S * list event) : list event := snd r.

(* ================================================================== *)
(** * Messages and configuration *)
(* ================================================================== *)

Inductive MessageType : Type := USER_INPUT | AGENT_OUTPUT | COMMAND | ERROR.

Record Message : Type := {
  type : MessageType;
  content : pystr;
  sender : pystr;
  timestamp : pystr;
  metadata : list (pystr * pystr)
}.

(** The configuration dictionary: one optional entry per key the module
    reads with [config.get(key, default)]. *)
Record AgentConfig : Type := {
  cfg_command : option (list pystr);
  cfg_name : option pystr;
  welcome_keywords : option (list pystr);
  mode_keywords : option (list pystr);
  ui_indicators : option (list pystr);
  response_markers : option (list pystr);
  repetitive_ui_markers : option (list pystr)
}.

Definition get {A} (entry : option A) (default : A) : A :=
  match entry with Some v => v | None => default end.

(** What the interpreter and the operating system answer during one call. *)
Inductive write_outcome : Type :=
| WriteOk
| WriteRaises (e : pystr).

Inductive start_outcome : Type :=
| StartOk (master slave : Z)
| StartFails.

Record Env : Type := {
  os_write : write_outcome;      (* what os.write on the terminal does *)
  encode_error : pystr;          (* str(e) of a UnicodeEncodeError *)
  fd_error : pystr;              (* str(e) of os.write on a missing descriptor *)
  spawn : start_outcome;         (* pty.openpty / Popen / poll in start *)
  time_time : Z;                 (* time.time() *)
  now_isoformat : pystr;         (* datetime.now().isoformat() *)
  arrivals : list pystr          (* chunks the reader thread decodes while
                                    the caller is suspended *)
}.

(* ================================================================== *)
(** * PTYAgent *)
(* ================================================================== *)

Module PTYAgent.

(** The fields of the object the methods below read or write.  The locks,
    the process handle and the thread handle carry no data. *)
Record t : Type := {
  config : AgentConfig;
  is_running_flag : bool;
  waiting_for_input : bool;
  command : list pystr;
  name : pystr;
  master_fd : option Z;
  slave_fd : option Z;
  output_queue : list pystr;     (* deque(maxlen=100) *)
  stop_reading : bool;
  input_prompt : pystr;
  last_prompt_time : Z
}.

Definition OUTPUT_QUEUE_MAXLEN : nat := 100.
Definition SOFT_CAP : nat := 4000.

(** [__init__] *)
Definition init (cfg : AgentConfig) : t := {|
  config := cfg;
  is_running_flag := false;
  waiting_for_input := false;
  command := get (cfg_command cfg) [lit "cline"];
  name := get (cfg_name cfg) (lit "Agent");
  master_fd := None;
  slave_fd := None;
  output_queue := [];
  stop_reading := false;
  input_prompt := [];
  last_prompt_time := 0
|}.

Definition set_prompt (w : bool) (p : pystr) (time : Z) (a : t) : t := {|
  config := config a; is_running_flag := is_running_flag a;
  waiting_for_input := w;
  command := command a; name := name a;
  master_fd := master_fd a; slave_fd := slave_fd a;
  output_queue := output_queue a; stop_reading := stop_reading a;
  input_prompt := p;
  last_prompt_time := time
|}.

Definition set_output_queue (q : list pystr) (a : t) : t := {|
  config := config a; is_running_flag := is_running_flag a;
  waiting_for_input := waiting_for_input a;
  command := command a; name := name a;
  master_fd := master_fd a; slave_fd := slave_fd a;
  output_queue := q;
  stop_reading := stop_reading a;
  input_prompt := input_prompt a;
  last_prompt_time := last_prompt_time a
|}.

Definition set_running (running stop : bool) (fds : option Z * option Z) (a : t) : t := {|
  config := config a;
  is_running_flag := running;
  waiting_for_input := waiting_for_input a;
  command := command a; name := name a;
  master_fd := fst fds; slave_fd := snd fds;
  output_queue := output_queue a;
  stop_reading := stop;
  input_prompt := input_prompt a;
  last_prompt_time := last_prompt_time a
|}.

(** [strip_ansi_codes]: the pattern
    [\x1B(?:[@-Z\\-_]|\[[0-?]*[ -/]*[@-~])]. *)
Definition ansi_escape : regex :=
  Seq (chr 27)
      (Alt (Chr (fun c => between 64 90 c || between 92 95 c))
           (seq_of [chr 91; Star (range 48 63); Star (range 32 47);
                    range 64 126])).

Definition strip_ansi_codes (text : pystr) : pystr :=
  sub_empty ansi_escape text.

(** The glyph literals as they stand in the source file (three code
    points each). *)
Definition ui_glyphs : list pystr :=
  [ [226; 8226; 173]; [226; 8226; 176]; [226; 8221; 8218];
    [226; 8221; 402]; [226; 8226; 174]; [226; 8226; 175] ]%N.

(** The character class of the box-line pattern: [\s] and the code points
    of the glyph literals. *)
Definition box_char (c : N) : bool :=
  is_space c
  || existsb (N.eqb c) [226; 8221; 8218; 402; 8226; 173; 176; 174; 175]%N.

Definition box_line : regex := Seq (plus (Chr box_char)) Eos.

(** The interactive-prompt patterns, in the order of the source; all are
    searched with [re.IGNORECASE]. *)
Definition to_end (items : list regex) : regex :=
  seq_of (items ++ [Star space; Eos]).

Definition prompt_patterns : list regex :=
  [ to_end [lit_ci "[y/N]"];
    to_end [lit_ci "[Y/n]"];
    to_end [lit_ci "(y/n)"];
    to_end [lit_ci "(Y/N)"];
    to_end [lit_ci "Continue?"];
    to_end [lit_ci "Proceed?"];
    to_end [lit_ci "Are you sure?"];
    to_end [lit_ci "Enter "; Star dot; lit_ci ":"];
    to_end [lit_ci "Password:"];
    to_end [lit_ci "Press"; Star dot; lit_ci "Enter"; Star dot;
            lit_ci "to"; Star dot; lit_ci "continue"];
    to_end [lit_ci "Press"; Star dot; lit_ci "any"; Star dot; lit_ci "key"];
    to_end [lit_ci "["; Star dot; lit_ci "]"];
    to_end [lit_ci "Press "; Star dot; lit_ci "to exit"];
    to_end [lit_ci "Press "; Star dot; lit_ci " to return"] ].

Definition default_welcome_keywords : list pystr := [lit "cline cli"].
Definition default_mode_keywords : list pystr :=
  [lit "switch to plan"; lit "switch to act"; lit "plan mode"; lit "act mode"].

Section WithLower.

(** [str.lower]: the case table of the Unicode database is an input. *)
Variable lower : pystr -> pystr.

Definition is_welcome_screen (cfg : AgentConfig) (clean_output : pystr) : bool :=
  existsb (contains (lower clean_output))
          (get (welcome_keywords cfg) default_welcome_keywords).

Definition is_mode_switch (cfg : AgentConfig) (clean_output : pystr) : bool :=
  existsb (contains (lower clean_output))
          (get (mode_keywords cfg) default_mode_keywords).

Definition is_box_line (clean_output : pystr) : bool :=
  matches box_line (strip clean_output).

Definition is_mostly_empty_ui (clean_output : pystr) : bool :=
  (mem (strip clean_output) ui_glyphs || is_box_line clean_output)
  && (length (strip clean_output) <=? 3).

Definition is_prompt (clean_output : pystr) : bool :=
  existsb (fun pattern => search pattern clean_output) prompt_patterns.

(** [_process_output] *)
Definition _process_output (env : Env) (output : pystr) : M t unit :=
  let clean_output := strip_ansi_codes output in
  cfg <- gets config ;;
  if negb (is_welcome_screen cfg clean_output)
     && negb (is_mode_switch cfg clean_output)
     && is_mostly_empty_ui clean_output
  then ret tt
  else
    (if is_prompt clean_output
     then modify (set_prompt true (strip clean_output) (time_time env))
     else ret tt) ;;
    modify (fun a =>
      set_output_queue
        (deque_append OUTPUT_QUEUE_MAXLEN (output_queue a) clean_output) a).

(** [_output_reader]: the loop body on each chunk that was read and
    decoded, for as long as the loop condition holds. *)
Fixpoint _output_reader (env : Env) (chunks : list pystr) : M t unit :=
  match chunks with
  | [] => ret tt
  | output :: chunks' =>
      stop <- gets stop_reading ;;
      running <- gets is_running_flag ;;
      if negb stop && running
      then _process_output env output ;; _output_reader env chunks'
      else ret tt
  end.

End WithLower.

(** [start]: the flags change only when the child is alive after the
    grace interval; any exception on the way makes the method return
    [False]. *)
Definition start (env : Env) : M t bool :=
  emit Call_start ;;
  match spawn env with
  | StartOk master slave =>
      modify (set_running true false (Some master, Some slave)) ;;
      ret true
  | StartFails => ret false
  end.

(** [stop] *)
Definition stop : M t unit :=
  emit Call_stop ;;
  modify (fun a => set_running false true (master_fd a, slave_fd a) a).

Definition is_running : M t bool := gets is_running_flag.

Definition CRLF : pystr := [13; 10]%N.

(** [send_command]: the body of the [try] returns at the first statement
    that raises, with the text of the exception; the pause after the write
    has no effect on the state. *)
Definition send_command (env : Env) (command : pystr) : M t pystr :=
  emit (Call_send_command command) ;;
  running <- gets is_running_flag ;;
  if negb running then ret (lit "Error: Agent not running")
  else
    modify (fun a => set_prompt false [] (last_prompt_time a) a) ;;
    match encode (command ++ CRLF) with
    | None => ret (lit "Error: " ++ encode_error env)
    | Some data =>
        fd <- gets master_fd ;;
        match fd, os_write env with
        | None, _ => ret (lit "Error: " ++ fd_error env)
        | Some fd, WriteRaises e => ret (lit "Error: " ++ e)
        | Some fd, WriteOk =>
            emit (OsWrite fd data) ;;
            ret (lit "Command sent")
        end
    end.

(** The loop of [get_output]: [combined] grows by whole fragments; the
    first fragment that would take it over the cap is put back. *)
Fixpoint drain (combined : pystr) (queue : list pystr) : pystr * list pystr :=
  match queue with
  | [] => (combined, [])
  | chunk :: queue' =>
      if length combined <? SOFT_CAP then
        if SOFT_CAP <? length (combined ++ chunk)
        then (combined, deque_appendleft OUTPUT_QUEUE_MAXLEN chunk queue')
        else drain (combined ++ chunk) queue'
      else (combined, queue)
  end.

(** [get_output] *)
Definition get_output (env : Env) : M t (option Message) :=
  queue <- gets output_queue ;;
  match queue with
  | [] => ret None
  | _ :: _ =>
      let '(combined, queue') := drain [] queue in
      modify (set_output_queue queue') ;;
      sender_name <- gets name ;;
      match strip combined with
      | [] => ret None
      | _ :: _ =>
          ret (Some {| type := AGENT_OUTPUT;
                       content := strip combined;
                       sender := sender_name;
                       timestamp := now_isoformat env;
                       metadata := [] |})
      end
  end.

End PTYAgent.

(* ================================================================== *)
(** * AgentChatBridge *)
(* ================================================================== *)

Module AgentChatBridge.

(** [user_id] holds [int(self.user_id)]; [main] refuses an identifier that
    is not numeric before a bridge is built.  [output_monitor_task] is
    [true] once a task object is stored in the field. *)
Record t : Type := {
  agent : PTYAgent.t;
  user_id : Z;
  output_monitor_task : bool
}.

(** The part of a Telegram update the handlers read. *)
Record Update : Type := {
  effective_user_id : Z;
  text : pystr
}.

Definition init (a : PTYAgent.t) (uid : Z) : t :=
  {| agent := a; user_id := uid; output_monitor_task := false |}.

Definition set_agent (a : PTYAgent.t) (b : t) : t :=
  {| agent := a; user_id := user_id b;
     output_monitor_task := output_monitor_task b |}.

Definition set_task (task : bool) (b : t) : t :=
  {| agent := agent b; user_id := user_id b; output_monitor_task := task |}.

Definition on_agent {A} (m : M PTYAgent.t A) : M t A := zoom agent set_agent m.

Definition reply_text (s : pystr) : M t unit := emit (ReplyText s).

(** The notices, with the code points of the source literals. *)
Definition LF : pystr := [10]%N.
Definition bullet : pystr := [226; 8364; 162]%N.

Definition msg_unauthorized : pystr := [226; 338]%N ++ lit " Unauthorized".
Definition msg_already_running : pystr :=
  [226; 8222; 185; 239; 184]%N ++ lit " Agent already running".
Definition msg_started : pystr :=
  [226; 339; 8230]%N ++ lit " Agent started" ++ LF ++ LF
  ++ lit "Commands:" ++ LF
  ++ bullet ++ lit " Natural language: `show me the current directory`" ++ LF
  ++ bullet ++ lit " CLI commands: `git status`, `ls`" ++ LF
  ++ bullet ++ lit " `/stop` - Stop agent" ++ LF
  ++ bullet ++ lit " `/status` - Check status".
Definition msg_failed_to_start : pystr :=
  [226; 338]%N ++ lit " Failed to start agent".
Definition msg_stopped : pystr := [240; 376; 8250; 8216]%N ++ lit " Agent stopped".
Definition msg_not_running : pystr :=
  [226; 338]%N ++ lit " Agent not running. Use /start".
Definition status_running : pystr := [240; 376; 376; 162]%N ++ lit " Running".
Definition status_stopped : pystr := [240; 376; 8221; 180]%N ++ lit " Stopped".
Definition status_waiting : pystr :=
  LF ++ [226; 184; 239; 184]%N ++ lit " Waiting for input".
Definition msg_command_sent (message_text : pystr) : pystr :=
  [240; 376; 8220; 164]%N ++ lit " Command sent: " ++ message_text.

(** [send_message]: a transport error is logged and dropped. *)
Definition send_message (chat_id : Z) (s : pystr) : M t unit :=
  emit (BotSend chat_id s).

Definition default_ui_indicators : list pystr :=
  [ [226; 8226; 173]; [226; 8226; 176]; [226; 8221; 8218];
    [226; 8221; 402] ]%N ++ [lit "/plan or /act"].
Definition default_response_markers : list pystr := [lit "###"].
Definition default_repetitive_ui_markers : list pystr := [lit "/plan or /act"].

Definition RECENT_MAXLEN : nat := 10.

(** What one pass of the monitor decides about a block. *)
Record verdict : Type := {
  block : pystr;          (* clean_output, as it would be sent *)
  fingerprint : Z;        (* msg_hash *)
  repetitive : bool;      (* is_repetitive_ui *)
  filtered : bool         (* should_filter *)
}.

Definition relayed (v : verdict) : bool := negb (filtered v).

Section WithInterpreter.

(** [str.lower] and the built-in [hash] on strings (seeded per process)
    are inputs. *)
Variable lower : pystr -> pystr.
Variable hash : pystr -> Z.

(** [handle_command] *)
Definition handle_command (env : Env) (update : Update) : M t unit :=
  uid <- gets user_id ;;
  if negb (effective_user_id update =? uid)%Z then reply_text msg_unauthorized
  else
    let cmd := text update in
    if eqb cmd (lit "/start") then
      running <- on_agent PTYAgent.is_running ;;
      if running then reply_text msg_already_running
      else
        started <- on_agent (PTYAgent.start env) ;;
        if started then
          reply_text msg_started ;;
          task <- gets output_monitor_task ;;
          if negb task then emit CreateTask ;; modify (set_task true)
          else ret tt
        else reply_text msg_failed_to_start
    else if eqb cmd (lit "/stop") then
      on_agent PTYAgent.stop ;;
      reply_text msg_stopped
    else if eqb cmd (lit "/status") then
      running <- on_agent PTYAgent.is_running ;;
      waiting <- gets (fun b => PTYAgent.waiting_for_input (agent b)) ;;
      reply_text (lit "Status: "
                  ++ (if running then status_running else status_stopped)
                  ++ (if waiting then status_waiting else []))
    else ret tt.

(** [handle_message].  While the handler sleeps, the reader thread
    processes the chunks that arrive. *)
Definition handle_message (env : Env) (update : Update) : M t unit :=
  uid <- gets user_id ;;
  if negb (effective_user_id update =? uid)%Z then reply_text msg_unauthorized
  else
    running <- on_agent PTYAgent.is_running ;;
    if negb running then reply_text msg_not_running
    else
      let message_text := strip (text update) in
      on_agent (PTYAgent.send_command env message_text) ;;
      reply_text (msg_command_sent message_text) ;;
      on_agent (PTYAgent._output_reader lower env (arrivals env)) ;;
      output <- on_agent (PTYAgent.get_output env) ;;
      match output with
      | Some m => reply_text (content m)
      | None => ret tt
      end.

(** The body of the monitor loop on one output.  [ui_ratio > 0.3] is
    compared on integers, [10 * ui_score > 3 * words]: a block has at most
    4000 characters, and for word counts of that size the rounded quotient
    exceeds the rounded 0.3 exactly when the fraction exceeds 3/10. *)
Definition judge (cfg : AgentConfig) (recent_messages : list Z)
    (output_content : pystr) : verdict :=
  let lines := map strip (split_chr 10 [] (PTYAgent.strip_ansi_codes output_content)) in
  let clean_output := join LF (fromkeys [] lines) in
  let ui_score :=
    length (filter (contains clean_output)
                   (get (ui_indicators cfg) default_ui_indicators)) in
  let normalized := join (lit " ") (split_ws [] clean_output) in
  let msg_hash := hash normalized in
  let is_agent_response :=
    existsb (contains clean_output)
            (get (response_markers cfg) default_response_markers) in
  let is_repetitive_ui :=
    (1 <=? ui_score)
    && existsb (contains clean_output)
               (get (repetitive_ui_markers cfg) default_repetitive_ui_markers) in
  let words := Nat.max 1 (length (split_ws [] clean_output)) in
  let is_mostly_ui :=
    (3 * words <? 10 * ui_score)
    || ((2 <=? ui_score) && (length (strip clean_output) <=? 100)) in
  let should_filter :=
    existsb (Z.eqb msg_hash) recent_messages
    || (is_repetitive_ui && negb is_agent_response && is_mostly_ui)
    || ((3 <=? ui_score) && (length (strip clean_output) <=? 50)) in
  {| block := clean_output; fingerprint := msg_hash;
     repetitive := is_repetitive_ui; filtered := should_filter |}.

(** The window after the loop body has dealt with a block. *)
Definition remember (recent_messages : list Z) (v : verdict) : list Z :=
  if filtered v then
    if repetitive v
    then deque_append RECENT_MAXLEN recent_messages (fingerprint v)
    else recent_messages
  else deque_append RECENT_MAXLEN recent_messages (fingerprint v).

(** [_output_monitor], one loop iteration per element of [schedule] (what
    the world does between two iterations); the loop leaves when the agent
    is no longer running.  The result lists the verdict on each block the
    loop obtained from [get_output], in order. *)
Fixpoint monitor_loop (schedule : list Env) (recent_messages : list Z)
    : M t (list verdict) :=
  match schedule with
  | [] => ret []
  | env :: schedule' =>
      running <- on_agent PTYAgent.is_running ;;
      if negb running then ret []
      else
        on_agent (PTYAgent._output_reader lower env (arrivals env)) ;;
        output <- on_agent (PTYAgent.get_output env) ;;
        match output with
        | Some m =>
            cfg <- gets (fun b => PTYAgent.config (agent b)) ;;
            uid <- gets user_id ;;
            let v := judge cfg recent_messages (content m) in
            (if filtered v then ret tt else send_message uid (block v)) ;;
            rest <- monitor_loop schedule' (remember recent_messages v) ;;
            ret (v :: rest)
        | None => monitor_loop schedule' recent_messages
        end
  end.

Definition _output_monitor (schedule : list Env) : M t (list verdict) :=
  monitor_loop schedule [].

End WithInterpreter.

End AgentChatBridge.

(* ================================================================== *)
(** * Vocabulary of the statements, and sample data *)
(* ================================================================== *)

Import PTYAgent.

Definition count_events (p : event -> bool) (evs : list event) : nat :=
  length (filter p evs).

Definition is_send_command (e : event) : bool :=
  match e with Call_send_command _ => true | _ => false end.
Definition is_create_task (e : event) : bool :=
  match e with CreateTask => true | _ => false end.
Definition is_start (e : event) : bool :=
  match e with Call_start => true | _ => false end.
Definition is_os_write (e : event) : bool :=
  match e with OsWrite _ _ => true | _ => false end.

(** The text a call of [get_output] hands over for a combined text: the
    trimmed text, or nothing when it is blank. *)
Definition delivered (combined : pystr) : option pystr :=
  match strip combined with
  | [] => None
  | c :: s => Some (c :: s)
  end.

(** The message [get_output] builds around a non-blank text. *)
Definition message_of (env : Env) (a : PTYAgent.t) (s : pystr) : Message :=
  {| type := AGENT_OUTPUT; content := s; sender := name a;
     timestamp := now_isoformat env; metadata := [] |}.

(** [h] is in the window with at most [k] fingerprints recorded after it. *)
Definition held (k : nat) (h : Z) (w : list Z) : Prop :=
  exists before after, w = before ++ h :: after /\ length after <= k.

(** Successive calls of [get_output], one per element of [envs]. *)
Fixpoint poll (envs : list Env) : M PTYAgent.t (list (option Message)) :=
  match envs with
  | [] => ret []
  | env :: envs' =>
      m <- get_output env ;;
      ms <- poll envs' ;;
      ret (m :: ms)
  end.

(** Updates handled one after the other by one handler. *)
Fixpoint handle_all {S} (handler : Env -> AgentChatBridge.Update -> M S unit)
    (inbox : list (Env * AgentChatBridge.Update)) : M S unit :=
  match inbox with
  | [] => ret tt
  | (env, update) :: inbox' =>
      handler env update ;; handle_all handler inbox'
  end.

Section MonitorSteps.

Import AgentChatBridge.

Variable lower : pystr -> pystr.
Variable hash : pystr -> Z.

(** The bridge after the reader thread and [get_output] have run in one
    iteration of the monitor, and the output obtained. *)
Definition after_reader (env : Env) (b : AgentChatBridge.t) : AgentChatBridge.t :=
  set_agent (state (_output_reader lower env (arrivals env) (agent b))) b.

Definition polled (env : Env) (b : AgentChatBridge.t) : option Message :=
  result (get_output env (agent (after_reader env b))).

Definition after_poll (env : Env) (b : AgentChatBridge.t) : AgentChatBridge.t :=
  set_agent (state (get_output env (agent (after_reader env b))))
            (after_reader env b).

Definition verdict_on (w : list Z) (b : AgentChatBridge.t) (m : Message) : verdict :=
  judge hash (config (agent b)) w (content m).

Definition relay_event (uid : Z) (v : verdict) : list event :=
  if filtered v then [] else [BotSend uid (block v)].

End MonitorSteps.

Module Sample.

Definition no_config : AgentConfig := {|
  cfg_command := None; cfg_name := None;
  welcome_keywords := None; mode_keywords := None;
  ui_indicators := None; response_markers := None;
  repetitive_ui_markers := None
|}.

(** The configuration [main] builds. *)
Definition cline_config : AgentConfig := {|
  cfg_command := Some [lit "cline"];
  cfg_name := Some (lit "Cline");
  welcome_keywords := Some [lit "cline cli"];
  mode_keywords :=
    Some [lit "switch to plan"; lit "switch to act"; lit "plan mode";
          lit "act mode"];
  ui_indicators := Some AgentChatBridge.default_ui_indicators;
  response_markers := Some [lit "###"];
  repetitive_ui_markers := Some [lit "/plan or /act"]
|}.

(** A configuration whose welcome screen is announced by a glyph pair. *)
Definition glyph_welcome_config : AgentConfig := {|
  cfg_command := None; cfg_name := None;
  welcome_keywords := Some [[226; 8226]%N];
  mode_keywords := None;
  ui_indicators := None; response_markers := None;
  repetitive_ui_markers := None
|}.

Definition quiet (w : write_outcome) : Env := {|
  os_write := w;
  encode_error := lit "surrogates not allowed";
  fd_error := lit "an integer is required";
  spawn := StartOk 5 6;
  time_time := 0;
  now_isoformat := lit "2024-01-01T00:00:00";
  arrivals := []
|}.

(** A started agent (descriptor 5) with the given prompt state and queue. *)
Definition running (cfg : AgentConfig) (waiting : bool) (prompt : pystr)
    (queue : list pystr) : PTYAgent.t := {|
  config := cfg; is_running_flag := true; waiting_for_input := waiting;
  command := [lit "cline"]; name := lit "Cline";
  master_fd := Some 5%Z; slave_fd := Some 6%Z;
  output_queue := queue; stop_reading := false;
  input_prompt := prompt; last_prompt_time := 17
|}.

(** [str.lower] restricted to ASCII letters, for code points outside
    [A-Z] that have no lowercase of their own. *)
Definition lower_ascii (s : pystr) : pystr := map ascii_lower s.

(** A stand-in for the built-in [hash]: a polynomial hash. *)
Definition hash_poly (s : pystr) : Z :=
  fold_left (fun h c => (31 * h + Z.of_N c) mod 4294967296)%Z s 0%Z.

Definition hears (chunks : list pystr) : Env := {|
  os_write := WriteOk;
  encode_error := [];
  fd_error := [];
  spawn := StartFails;
  time_time := 0;
  now_isoformat := lit "2024-01-01T00:00:00";
  arrivals := chunks
|}.

(** Two renderings of the same frame of three glyphs; they differ only in
    the run of blanks after the first glyph. *)
Definition frame (gap : nat) : pystr :=
  [226; 8226; 173]%N ++ repeat 32%N gap ++ [226; 8226; 176]%N ++ lit " "
  ++ [226; 8221; 8218]%N.

Definition io_error : pystr := lit "[Errno 5] Input/output error".

Definition user : Z := 42.

Definition says (s : pystr) : AgentChatBridge.Update :=
  {| AgentChatBridge.effective_user_id := user; AgentChatBridge.text := s |}.

Definition bridge (a : PTYAgent.t) : AgentChatBridge.t :=
  AgentChatBridge.init a user.

End Sample.

(* ================================================================== *)
(** * The reader loop and the dispatch of updates *)
(* ================================================================== *)

(** What one pass of the reader loop finds: [select] reports nothing,
    [os.read] returns data (given decoded), [os.read] returns no data, or
    [select] or [os.read] raises. *)
Inductive poll_outcome : Type :=
| Idle
| Data (output : pystr)
| Eof
| Raises.

(** How the reader loop ends: its condition fails, end of stream, more
    than ten errors in a row; or it is still polling, with the given
    error count, when the observation stops. *)
Inductive reader_exit : Type :=
| LoopCondition
| EndOfStream
| TooManyErrors
| StillPolling (error_count : nat).

(** Which handler [main] registered for an update: [handle_command] for
    [/start], [/stop] and [/status], [handle_message] for text that is not
    a command. *)
Inductive inbound : Type :=
| ToCommandHandler (env : Env) (update : AgentChatBridge.Update)
| ToMessageHandler (env : Env) (update : AgentChatBridge.Update).

Section Loops.

Variable lower : pystr -> pystr.

(** [_output_reader] with its error counter, one loop pass per element of
    [polls]. *)
Fixpoint reader_loop (env : Env) (error_count : nat)
    (polls : list poll_outcome) : M PTYAgent.t reader_exit :=
  match polls with
  | [] => ret (StillPolling error_count)
  | p :: polls' =>
      stop <- gets stop_reading ;;
      running <- gets is_running_flag ;;
      if negb stop && running then
        match p with
        | Idle => reader_loop env error_count polls'
        | Data output =>
            _process_output lower env output ;;
            reader_loop env 0 polls'
        | Eof => ret EndOfStream
        | Raises =>
            if 10 <? S error_count then ret TooManyErrors
            else reader_loop env (S error_count) polls'
        end
      else ret LoopCondition
  end.

(** The updates of a session, each given to its handler. *)
Fixpoint serve (inbox : list inbound) : M AgentChatBridge.t unit :=
  match inbox with
  | [] => ret tt
  | ToCommandHandler env update :: inbox' =>
      AgentChatBridge.handle_command env update ;; serve inbox'
  | ToMessageHandler env update :: inbox' =>
      AgentChatBridge.handle_message lower env update ;; serve inbox'
  end.

End Loops.

(** A CSI control sequence: ESC, an opening bracket, parameter characters,
    intermediate characters and a final character. *)
Definition csi (params inter : pystr) (final : N) : pystr :=
  [27; 91]%N ++ params ++ inter ++ [final].

Definition no_escape (s : pystr) : bool :=
  forallb (fun c => negb (c =? 27)%N) s.

Definition blank (s : pystr) : bool := forallb is_space s.

Definition is_surrogate (c : N) : bool := between 55296 57343 c.

(** No indicator of the configuration occurs in the text. *)
Definition no_indicator (cfg : AgentConfig) (s : pystr) : bool :=
  forallb (fun indicator => negb (contains s indicator))
          (get (ui_indicators cfg) AgentChatBridge.default_ui_indicators).

(** [1] once the monitor task exists, [0] before. *)
Definition task_count (b : AgentChatBridge.t) : nat :=
  if AgentChatBridge.output_monitor_task b then 1 else 0.

(** The prompt patterns that are one literal up to case, as the literal
    stands in the source. *)
Definition literal_prompts : list string :=
  [ "[y/N]"; "[Y/n]"; "(y/n)"; "(Y/N)"; "Continue?"; "Proceed?";
    "Are you sure?"; "Password:" ]%string.

(** The first and the last character of the text are not whitespace. *)
Definition solid_ends (s : pystr) : bool :=
  match s, rev s with
  | c :: _, d :: _ => negb (is_space c) && negb (is_space d)
  | _, _ => false
  end.

(** The case-insensitive literal accepts the literal itself. *)
Definition accepts_itself (c : N) : bool :=
  match chr_ci c with Chr p => p c | _ => false end.

(* ================================================================== *)
(** * Facts about the string layer *)
(* ================================================================== *)

Lemma encode_app (s1 s2 : pystr) :
  encode (s1 ++ s2) =
  match encode s1, encode s2 with
  | Some b1, Some b2 => Some (b1 ++ b2)
  | _, _ => None
  end.
Proof.
  induction s1 as [|c s1 IH]; cbn [encode app].
  - destruct (encode s2); reflexivity.
  - rewrite IH. destruct (encode_char c) as [b|]; [|reflexivity].
    destruct (encode s1) as [b1|]; [|reflexivity].
    destruct (encode s2) as [b2|]; [|reflexivity].
    now rewrite app_assoc.
Qed.

Lemma encode_CRLF : encode CRLF = Some CRLF.
Proof. reflexivity. Qed.

Lemma encode_line (command : pystr) :
  encode (command ++ CRLF) =
  match encode command with
  | Some data => Some (data ++ CRLF)
  | None => None
  end.
Proof. rewrite encode_app, encode_CRLF. destruct (encode command); reflexivity. Qed.

(** The fuel of [sub_empty] is enough: more of it changes nothing. *)
Lemma remove_all_fuel (r : regex) (fuel1 : nat) :
  forall (fuel2 : nat) (s : pystr),
    length s <= fuel1 -> length s <= fuel2 ->
    remove_all fuel1 r s = remove_all fuel2 r s.
Proof.
  induction fuel1 as [|fuel1 IH]; intros fuel2 s H1 H2.
  - destruct s; [|cbn in H1; lia]. destruct fuel2; reflexivity.
  - destruct fuel2 as [|fuel2].
    + destruct s; [reflexivity | cbn in H2; lia].
    + cbn [remove_all]. destruct s as [|c s]; [reflexivity|].
      cbn [length] in H1, H2.
      destruct (match_prefix r (c :: s)) as [rest|].
      * destruct (Nat.ltb_spec (length rest) (length (c :: s))) as [Hlt|_].
        -- cbn [length] in Hlt. apply IH; lia.
        -- f_equal. apply IH; lia.
      * f_equal. apply IH; lia.
Qed.

Lemma error_is_not_success (e : pystr) : lit "Error: " ++ e <> lit "Command sent".
Proof. discriminate. Qed.

(* ================================================================== *)
(** * send_command *)
(* ================================================================== *)

(** The state [send_command] leaves behind on a running agent, whatever
    the write does. *)
Lemma send_command_state (env : Env) (command : pystr) (a : PTYAgent.t) :
  is_running_flag a = true ->
  state (send_command env command a) = set_prompt false [] (last_prompt_time a) a.
Proof.
  intros Hrun. unfold send_command, bind, gets, modify, emit, ret, state.
  cbn. rewrite Hrun. cbn.
  destruct (encode (command ++ CRLF)) as [data|]; cbn; [|reflexivity].
  destruct (master_fd a) as [fd|]; cbn; [|reflexivity].
  destruct (os_write env); reflexivity.
Qed.

Lemma send_command_not_running (env : Env) (command : pystr) (a : PTYAgent.t) :
  is_running_flag a = false ->
  send_command env command a =
  (lit "Error: Agent not running", a, [Call_send_command command]).
Proof.
  intros Hrun. unfold send_command, bind, gets, modify, emit, ret.
  cbn. rewrite Hrun. reflexivity.
Qed.

Lemma send_command_ok (env : Env) (command : pystr) (a : PTYAgent.t)
    (fd : Z) (data : bytes) :
  is_running_flag a = true -> master_fd a = Some fd ->
  encode command = Some data -> os_write env = WriteOk ->
  send_command env command a =
  (lit "Command sent", set_prompt false [] (last_prompt_time a) a,
   [Call_send_command command; OsWrite fd (data ++ CRLF)]).
Proof.
  intros Hrun Hfd Henc Hw. unfold send_command, bind, gets, modify, emit, ret.
  cbn. rewrite Hrun. cbn. rewrite encode_line, Henc. cbn.
  rewrite Hfd, Hw. reflexivity.
Qed.

Lemma send_command_write_raises (env : Env) (command : pystr) (a : PTYAgent.t)
    (fd : Z) (data : bytes) (e : pystr) :
  is_running_flag a = true -> master_fd a = Some fd ->
  encode command = Some data -> os_write env = WriteRaises e ->
  send_command env command a =
  (lit "Error: " ++ e, set_prompt false [] (last_prompt_time a) a,
   [Call_send_command command]).
Proof.
  intros Hrun Hfd Henc Hw. unfold send_command, bind, gets, modify, emit, ret.
  cbn. rewrite Hrun. cbn. rewrite encode_line, Henc. cbn.
  rewrite Hfd, Hw. reflexivity.
Qed.

(** C1.  On a running agent, whenever [send_command] reports success for a
    command text, the only write the terminal received is the encoded text
    immediately followed by one line terminator (CR LF), and afterwards
    [waiting_for_input] is false and [input_prompt] is empty, whatever
    they were before the call. *)
Theorem send_command_writes_line (env : Env) (command : pystr) (a : PTYAgent.t) :
  is_running_flag a = true ->
  result (send_command env command a) = lit "Command sent" ->
  exists fd data,
    master_fd a = Some fd
    /\ encode command = Some data
    /\ events (send_command env command a)
       = [Call_send_command command; OsWrite fd (data ++ CRLF)]
    /\ waiting_for_input (state (send_command env command a)) = false
    /\ input_prompt (state (send_command env command a)) = [].
Proof.
  intros Hrun Hres.
  assert (Hst := send_command_state env command a Hrun).
  revert Hres Hst.
  unfold send_command, bind, gets, modify, emit, ret, result, state, events.
  cbn. rewrite Hrun. cbn. rewrite encode_line.
  destruct (encode command) as [data|]; cbn;
    [|intros H; now apply error_is_not_success in H].
  destruct (master_fd a) as [fd|]; cbn;
    [|intros H; now apply error_is_not_success in H].
  destruct (os_write env) as [|e]; cbn;
    [|intros H; now apply error_is_not_success in H].
  intros _ _. exists fd, data. repeat split; reflexivity.
Qed.

Lemma send_command_writes_line_witness :
  let a := Sample.running Sample.no_config true (lit "Continue? [y/N]") [] in
  let r := send_command (Sample.quiet WriteOk) (lit "y") a in
  events r = [Call_send_command (lit "y"); OsWrite 5 [121; 13; 10]%N]
  /\ waiting_for_input (state r) = false
  /\ input_prompt (state r) = [].
Proof.
  intros a r.
  destruct (send_command_writes_line (Sample.quiet WriteOk) (lit "y") a)
    as (fd & data & Hfd & Henc & Hev & Hw & Hp);
    [reflexivity | reflexivity |].
  injection Hfd as <-. injection Henc as <-.
  exact (conj Hev (conj Hw Hp)).
Defined.

(** C10.  [send_command] clears [waiting_for_input] and [input_prompt]
    before it attempts the write: after any call on a running agent the
    flag is false and the prompt empty, and when the write raises the call
    returns the error text, nothing reached the terminal, and the prompt
    state stays cleared (the rest of the agent is as before). *)
Theorem send_command_clears_before_write (env : Env) (command : pystr)
    (a : PTYAgent.t) :
  is_running_flag a = true ->
  waiting_for_input (state (send_command env command a)) = false
  /\ input_prompt (state (send_command env command a)) = []
  /\ (forall fd data e,
        master_fd a = Some fd -> encode command = Some data ->
        os_write env = WriteRaises e ->
        result (send_command env command a) = lit "Error: " ++ e
        /\ count_events is_os_write (events (send_command env command a)) = 0
        /\ state (send_command env command a)
           = set_prompt false [] (last_prompt_time a) a).
Proof.
  intros Hrun. rewrite (send_command_state env command a Hrun).
  split; [reflexivity|]. split; [reflexivity|].
  intros fd data e Hfd Henc Hw.
  rewrite (send_command_write_raises env command a fd data e Hrun Hfd Henc Hw).
  repeat split; reflexivity.
Qed.

Lemma send_command_clears_before_write_witness :
  let a := Sample.running Sample.no_config true (lit "Continue? [y/N]") [] in
  let r := send_command (Sample.quiet (WriteRaises Sample.io_error)) (lit "y") a in
  waiting_for_input a = true
  /\ result r = lit "Error: " ++ Sample.io_error
  /\ waiting_for_input (state r) = false
  /\ input_prompt (state r) = [].
Proof.
  intros a r.
  destruct (send_command_clears_before_write
              (Sample.quiet (WriteRaises Sample.io_error)) (lit "y") a)
    as (Hw & Hp & Hfail); [reflexivity|].
  destruct (Hfail 5%Z [121%N] Sample.io_error) as (Hres & _ & _);
    [reflexivity | reflexivity | reflexivity |].
  exact (conj eq_refl (conj Hres (conj Hw Hp))).
Defined.

(* ================================================================== *)
(** * get_output *)
(* ================================================================== *)

Lemma deque_appendleft_room {A} (maxlen : nat) (x : A) (q : list A) :
  length q < maxlen -> deque_appendleft maxlen x q = x :: q.
Proof.
  intros H. unfold deque_appendleft.
  destruct (Nat.ltb_spec (length q) maxlen); [reflexivity | lia].
Qed.

Lemma set_output_queue_same (a : PTYAgent.t) :
  set_output_queue (output_queue a) a = a.
Proof. destruct a; reflexivity. Qed.

Lemma length_lstrip (s : pystr) : length (lstrip s) <= length s.
Proof.
  induction s as [|c s IH]; cbn [lstrip]; [lia|].
  destruct (is_space c); cbn [length]; lia.
Qed.

Lemma length_strip (s : pystr) : length (strip s) <= length s.
Proof.
  unfold strip, rstrip. rewrite length_rev.
  etransitivity; [apply length_lstrip|]. rewrite length_rev.
  apply length_lstrip.
Qed.

Lemma length_concat_bound (small : nat) (q : list pystr) :
  (forall f, In f q -> length f <= small) ->
  length (concat q) <= small * length q.
Proof.
  induction q as [|f q IH]; intros Hall; cbn [concat length]; [lia|].
  rewrite length_app.
  assert (length f <= small) by (apply Hall; now left).
  assert (length (concat q) <= small * length q)
    by (apply IH; intros g Hg; apply Hall; now right).
  lia.
Qed.

(** The loop takes a prefix of whole fragments and stops at the end of the
    queue, at the cap, or in front of the first fragment that does not fit. *)
Lemma drain_spec (queue : list pystr) :
  forall combined,
    length queue <= OUTPUT_QUEUE_MAXLEN ->
    length combined <= SOFT_CAP ->
    exists taken rest,
      queue = taken ++ rest
      /\ drain combined queue = (combined ++ concat taken, rest)
      /\ length (combined ++ concat taken) <= SOFT_CAP
      /\ (rest = []
          \/ length (combined ++ concat taken) = SOFT_CAP
          \/ exists f rest',
               rest = f :: rest'
               /\ SOFT_CAP < length (combined ++ concat taken ++ f)).
Proof.
  induction queue as [|chunk queue IH]; intros combined Hlen Hcap.
  - exists [], []. cbn [drain concat app]. rewrite app_nil_r. auto.
  - cbn [drain]. cbn [length] in Hlen.
    destruct (Nat.ltb_spec (length combined) SOFT_CAP) as [Hlt|Hge].
    + destruct (Nat.ltb_spec SOFT_CAP (length (combined ++ chunk))) as [Hover|Hfit].
      * exists [], (chunk :: queue). cbn [concat app]. rewrite app_nil_r.
        rewrite deque_appendleft_room by lia.
        repeat split; try assumption.
        right; right. exists chunk, queue. split; [reflexivity|].
        cbn [app]. exact Hover.
      * destruct (IH (combined ++ chunk)) as (taken & rest & Hq & Hd & Hle & Hstop);
          [lia | exact Hfit |].
        exists (chunk :: taken), rest. cbn [concat app].
        rewrite <- app_assoc in Hd, Hle, Hstop.
        split; [now rewrite Hq|]. split; [exact Hd|]. split; [exact Hle|].
        destruct Hstop as [H|[H|(f & rest' & H1 & H2)]]; auto.
        right; right. exists f, rest'. split; [exact H1|].
        now rewrite <- !app_assoc in H2 |- *.
    + exists [], (chunk :: queue). cbn [concat app]. rewrite app_nil_r.
      repeat split; try assumption. right; left. lia.
Qed.

(** Below the cap the loop empties the queue. *)
Lemma drain_all (queue : list pystr) :
  forall combined,
    length (combined ++ concat queue) < SOFT_CAP ->
    drain combined queue = (combined ++ concat queue, []).
Proof.
  induction queue as [|chunk queue IH]; intros combined Hlt.
  - cbn [drain concat]. now rewrite app_nil_r.
  - cbn [drain]. cbn [concat] in *. rewrite !length_app in Hlt.
    destruct (Nat.ltb_spec (length combined) SOFT_CAP) as [_|Hge]; [|lia].
    destruct (Nat.ltb_spec SOFT_CAP (length (combined ++ chunk))) as [Hover|_].
    + rewrite length_app in Hover. lia.
    + rewrite IH; rewrite <- app_assoc; [reflexivity|].
      rewrite !length_app. lia.
Qed.

(** [get_output] in terms of what the loop took. *)
Lemma get_output_drained (env : Env) (a : PTYAgent.t) (taken rest : list pystr) :
  drain [] (output_queue a) = (concat taken, rest) ->
  get_output env a
  = (option_map (message_of env a) (delivered (concat taken)),
     set_output_queue rest a, []).
Proof.
  intros Hd. unfold get_output, bind, gets, modify, ret. cbn.
  destruct (output_queue a) as [|f q] eqn:Hq.
  - cbn in Hd. injection Hd as <- <-.
    rewrite <- Hq, set_output_queue_same. reflexivity.
  - rewrite Hd. cbn. unfold delivered.
    destruct (strip (concat taken)); reflexivity.
Qed.

Lemma delivered_length (combined s : pystr) :
  delivered combined = Some s -> 0 < length s <= length combined.
Proof.
  unfold delivered. pose proof (length_strip combined) as H.
  destruct (strip combined) as [|c t]; [discriminate|].
  intros [= <-]. cbn [length] in *. lia.
Qed.

Lemma positive_cap : 0 < SOFT_CAP.
Proof. apply Nat.ltb_lt. reflexivity. Qed.

(** C2.  For every queue, [get_output] takes a prefix of whole fragments
    whose concatenation has at most 4000 characters; it stops at the end of
    the queue, at the cap, or in front of the first fragment that would go
    over the cap, which stays at the head of the queue with everything
    behind it.  It returns the trimmed concatenation as an agent-output
    message of at most 4000 characters, and nothing when the queue is empty
    or the concatenation is blank.  When the fragments are small ([total]
    characters in fragments of at most [small], with
    [total + small <= 8000], for instance 5000 characters in fragments of
    up to 3000), the next call takes all the rest and empties the queue. *)
Theorem get_output_soft_cap (env1 env2 : Env) (a : PTYAgent.t) :
  length (output_queue a) <= OUTPUT_QUEUE_MAXLEN ->
  exists taken rest,
    output_queue a = taken ++ rest
    /\ length (concat taken) <= SOFT_CAP
    /\ (rest = []
        \/ length (concat taken) = SOFT_CAP
        \/ exists f rest',
             rest = f :: rest' /\ SOFT_CAP < length (concat taken ++ f))
    /\ result (get_output env1 a)
       = option_map (message_of env1 a) (delivered (concat taken))
    /\ output_queue (state (get_output env1 a)) = rest
    /\ (forall m, result (get_output env1 a) = Some m ->
                  0 < length (content m) <= SOFT_CAP)
    /\ (output_queue a = [] -> result (get_output env1 a) = None)
    /\ (forall small total,
          (forall f, In f (output_queue a) -> length f <= small) ->
          length (concat (output_queue a)) = total ->
          total + small <= 2 * SOFT_CAP ->
          result (get_output env2 (state (get_output env1 a)))
          = option_map (message_of env2 a) (delivered (concat rest))
          /\ output_queue (state (get_output env2 (state (get_output env1 a)))) = []).
Proof.
  intros Hlen.
  destruct (drain_spec (output_queue a) [] Hlen) as
    (taken & rest & Hq & Hd & Hle & Hstop); [cbn; lia|].
  cbn [app] in Hd, Hle, Hstop.
  exists taken, rest.
  rewrite (get_output_drained env1 a taken rest Hd).
  unfold result, state. cbn [fst snd].
  split; [exact Hq|]. split; [exact Hle|]. split; [exact Hstop|].
  split; [reflexivity|]. split; [reflexivity|].
  split; [|split].
  - intros m Hm. destruct (delivered (concat taken)) as [s|] eqn:Hs; [|discriminate].
    cbn in Hm. injection Hm as <-. cbn [content message_of].
    apply delivered_length in Hs. lia.
  - intros Hempty. rewrite Hempty in Hq.
    symmetry in Hq. apply app_eq_nil in Hq as [-> _]. reflexivity.
  - intros small total Hsmall Htotal Hbound.
    assert (Hrest : length (concat rest) < SOFT_CAP).
    { rewrite Hq, concat_app, length_app in Htotal.
      destruct Hstop as [->|[Hfull|(f & rest' & Hr & Hover)]].
      - cbn. apply positive_cap.
      - assert (Hpos : 0 < small).
        { destruct small as [|n]; [|lia].
          assert (length (concat taken) <= 0 * length taken).
          { apply length_concat_bound. intros g Hg. apply Hsmall.
            rewrite Hq. apply in_or_app. now left. }
          pose proof positive_cap. lia. }
        lia.
      - rewrite length_app in Hover.
        assert (length f <= small).
        { apply Hsmall. rewrite Hq, Hr. apply in_or_app. right. now left. }
        lia. }
    assert (Hd2 : drain [] (output_queue (set_output_queue rest a))
                  = (concat rest, [])).
    { cbn [output_queue set_output_queue]. apply (drain_all rest []). exact Hrest. }
    rewrite (get_output_drained env2 _ rest [] Hd2).
    cbn [fst snd output_queue set_output_queue]. split; reflexivity.
Qed.

Lemma get_output_soft_cap_witness :
  let env := Sample.quiet WriteOk in
  let a :=
    Sample.running Sample.no_config false [] (repeat (repeat 120%N 500) 10) in
  length (output_queue a) <= OUTPUT_QUEUE_MAXLEN
  /\ length (concat (output_queue a)) = 5000
  /\ option_map (fun m => length (content m)) (result (get_output env a))
     = Some 4000
  /\ length (output_queue (state (get_output env a))) = 2
  /\ output_queue (state (get_output env (state (get_output env a)))) = [].
Proof.
  intros env a.
  assert (Hlen : length (output_queue a) <= OUTPUT_QUEUE_MAXLEN)
    by (apply Nat.leb_le; vm_compute; reflexivity).
  destruct (get_output_soft_cap env env a Hlen) as
    (taken & rest & _ & _ & _ & _ & _ & _ & _ & Hnext).
  destruct (Hnext 500 5000) as [_ Hempty].
  - intros f Hf. apply repeat_spec in Hf. subst f. now rewrite repeat_length.
  - vm_compute. reflexivity.
  - apply Nat.leb_le. vm_compute. reflexivity.
  - split; [exact Hlen|].
    split; [vm_compute; reflexivity|].
    split; [vm_compute; reflexivity|].
    split; [vm_compute; reflexivity|].
    exact Hempty.
Defined.

(** C9.  When the oldest fragment of the queue is longer than 4000
    characters, [get_output] takes it off, puts it back and returns
    nothing, and the agent is exactly as before; so any number of further
    calls return nothing as well and deliver neither that fragment nor
    what is queued behind it. *)
Theorem get_output_stuck_on_oversized (env : Env) (envs : list Env)
    (a : PTYAgent.t) (f : pystr) (behind : list pystr) :
  output_queue a = f :: behind ->
  SOFT_CAP < length f ->
  length (output_queue a) <= OUTPUT_QUEUE_MAXLEN ->
  get_output env a = (None, a, [])
  /\ poll envs a = (repeat None (length envs), a, []).
Proof.
  intros Hq Hbig Hlen.
  assert (Hone : forall e, get_output e a = (None, a, [])).
  { intros e.
    assert (Hd : drain [] (output_queue a) = (concat [], f :: behind)).
    { rewrite Hq in Hlen |- *. cbn [drain length app concat] in *.
      destruct (Nat.ltb_spec 0 SOFT_CAP) as [_|H];
        [|pose proof positive_cap; lia].
      destruct (Nat.ltb_spec SOFT_CAP (length f)) as [_|H]; [|lia].
      rewrite deque_appendleft_room by lia. reflexivity. }
    rewrite (get_output_drained e a [] (f :: behind) Hd).
    rewrite <- Hq, set_output_queue_same. reflexivity. }
  split; [apply Hone|].
  induction envs as [|e envs IH]; [reflexivity|].
  cbn [poll length repeat]. unfold bind. rewrite Hone, IH. reflexivity.
Qed.

Lemma get_output_stuck_on_oversized_witness :
  let env := Sample.quiet WriteOk in
  let a :=
    Sample.running Sample.no_config false []
      [repeat 120%N 4001; lit "done"] in
  poll [env; env; env] a = ([None; None; None], a, []).
Proof.
  intros env a.
  destruct (get_output_stuck_on_oversized env [env; env; env] a
              (repeat 120%N 4001) [lit "done"]) as [_ H].
  - reflexivity.
  - rewrite repeat_length. apply Nat.ltb_lt. vm_compute. reflexivity.
  - apply Nat.leb_le. vm_compute. reflexivity.
  - exact H.
Defined.

(* ================================================================== *)
(** * _process_output *)
(* ================================================================== *)

Lemma deque_append_last {A} (maxlen : nat) (q : list A) (x : A) :
  exists kept, deque_append maxlen q x = kept ++ [x].
Proof.
  unfold deque_append. destruct (length q <? maxlen); eauto.
Qed.

(** What [_process_output] does to the queue when it does not return
    early. *)
Lemma process_output_enqueues (lower : pystr -> pystr) (env : Env)
    (output : pystr) (a : PTYAgent.t) :
  negb (is_welcome_screen lower (config a) (strip_ansi_codes output))
  && negb (is_mode_switch lower (config a) (strip_ansi_codes output))
  && is_mostly_empty_ui (strip_ansi_codes output) = false ->
  output_queue (state (_process_output lower env output a))
  = deque_append OUTPUT_QUEUE_MAXLEN (output_queue a) (strip_ansi_codes output).
Proof.
  intros Hkeep. unfold _process_output.
  cbn [bind gets modify ret state fst snd]. rewrite Hkeep.
  destruct (is_prompt (strip_ansi_codes output)); reflexivity.
Qed.

(** C3.  A cleaned fragment that the "mostly empty" rule classifies as
    decorative UI is not appended to the output queue (the agent is left
    untouched), unless the fragment contains a configured welcome-screen
    or mode-switch keyword: then it is appended to the queue (and is its
    newest element), however sparse it is. *)
Theorem mostly_empty_ui_dropped_unless_keyword (lower : pystr -> pystr)
    (env : Env) (output : pystr) (a : PTYAgent.t) :
  is_mostly_empty_ui (strip_ansi_codes output) = true ->
  (is_welcome_screen lower (config a) (strip_ansi_codes output)
   || is_mode_switch lower (config a) (strip_ansi_codes output) = false ->
   _process_output lower env output a = (tt, a, []))
  /\ (is_welcome_screen lower (config a) (strip_ansi_codes output)
      || is_mode_switch lower (config a) (strip_ansi_codes output) = true ->
      output_queue (state (_process_output lower env output a))
      = deque_append OUTPUT_QUEUE_MAXLEN (output_queue a) (strip_ansi_codes output)
      /\ exists kept,
           output_queue (state (_process_output lower env output a))
           = kept ++ [strip_ansi_codes output]).
Proof.
  intros Hui. split.
  - intros Hkw. apply orb_false_iff in Hkw as [Hw Hm].
    unfold _process_output. cbn [bind gets modify ret fst snd].
    rewrite Hw, Hm, Hui. reflexivity.
  - intros Hkw.
    assert (Hkeep :
      negb (is_welcome_screen lower (config a) (strip_ansi_codes output))
      && negb (is_mode_switch lower (config a) (strip_ansi_codes output))
      && is_mostly_empty_ui (strip_ansi_codes output) = false).
    { rewrite <- negb_orb, Hkw. reflexivity. }
    rewrite (process_output_enqueues lower env output a Hkeep).
    split; [reflexivity|]. apply deque_append_last.
Qed.

(** A two-character welcome-screen fragment is enqueued. *)
Lemma mostly_empty_ui_dropped_unless_keyword_witness :
  let env := Sample.quiet WriteOk in
  let a := Sample.running Sample.glyph_welcome_config false [] [lit "$ "] in
  let fragment := [226; 8226]%N in
  length fragment = 2
  /\ is_mostly_empty_ui (strip_ansi_codes fragment) = true
  /\ output_queue (state (_process_output Sample.lower_ascii env fragment a))
     = [lit "$ "; fragment].
Proof.
  intros env a fragment.
  assert (Hui : is_mostly_empty_ui (strip_ansi_codes fragment) = true)
    by (vm_compute; reflexivity).
  destruct (mostly_empty_ui_dropped_unless_keyword
              Sample.lower_ascii env fragment a Hui) as [_ Hkeep].
  destruct Hkeep as [Hq _]; [vm_compute; reflexivity|].
  split; [reflexivity|]. split; [exact Hui|].
  rewrite Hq. vm_compute. reflexivity.
Defined.

(* ================================================================== *)
(** * handle_command *)
(* ================================================================== *)

Import AgentChatBridge.

Ltac run_m :=
  cbn [bind gets modify ret emit zoom on_agent reply_text send_message
       PTYAgent.is_running fst snd app result state events].

(** Unfolds the plumbing of [M] without touching the methods. *)
Ltac open_m :=
  unfold on_agent, reply_text, send_message, PTYAgent.is_running;
  unfold bind, zoom, gets, modify, ret, emit, result, state, events;
  cbv beta iota; cbn [fst snd].

Lemma set_agent_same (b : AgentChatBridge.t) : set_agent (agent b) b = b.
Proof. destruct b; reflexivity. Qed.

Lemma command_unauthorized (env : Env) (update : Update) (b : AgentChatBridge.t) :
  effective_user_id update <> user_id b ->
  handle_command env update b = (tt, b, [ReplyText msg_unauthorized]).
Proof.
  intros Hu. unfold handle_command. run_m.
  destruct (Z.eqb_spec (effective_user_id update) (user_id b)); [contradiction|].
  reflexivity.
Qed.

Lemma start_while_running (env : Env) (update : Update) (b : AgentChatBridge.t) :
  effective_user_id update = user_id b ->
  text update = lit "/start" ->
  is_running_flag (agent b) = true ->
  handle_command env update b = (tt, b, [ReplyText msg_already_running]).
Proof.
  intros Hu Ht Hrun. unfold handle_command. run_m.
  rewrite Hu, Z.eqb_refl, Ht. cbn [negb].
  change (eqb (lit "/start") (lit "/start")) with true. cbv iota.
  run_m. rewrite Hrun, set_agent_same. reflexivity.
Qed.

Lemma start_while_stopped (env : Env) (update : Update) (b : AgentChatBridge.t)
    (master slave : Z) :
  effective_user_id update = user_id b ->
  text update = lit "/start" ->
  is_running_flag (agent b) = false ->
  output_monitor_task b = false ->
  spawn env = StartOk master slave ->
  handle_command env update b
  = (tt,
     set_task true
       (set_agent (set_running true false (Some master, Some slave) (agent b)) b),
     [Call_start; ReplyText msg_started; CreateTask]).
Proof.
  intros Hu Ht Hrun Htask Hspawn. unfold handle_command. run_m.
  rewrite Hu, Z.eqb_refl, Ht. cbn [negb].
  change (eqb (lit "/start") (lit "/start")) with true. cbv iota.
  run_m. rewrite Hrun. unfold PTYAgent.start. run_m. rewrite Hspawn. run_m.
  cbn [output_monitor_task set_agent]. rewrite Htask. reflexivity.
Qed.

(** C7.  [/start] while the agent is already running leaves the bridge
    as it is: the agent is not started again and no monitor task is
    created (the authorized user gets the notice).  Hence two [/start] in a
    row on a stopped bridge start the agent once and launch the relay loop
    once. *)
Theorem start_twice_launches_one_relay_loop (env1 env2 : Env)
    (update : Update) (b : AgentChatBridge.t) (master slave : Z) :
  text update = lit "/start" ->
  (is_running_flag (agent b) = true ->
   state (handle_command env2 update b) = b
   /\ count_events is_start (events (handle_command env2 update b)) = 0
   /\ count_events is_create_task (events (handle_command env2 update b)) = 0
   /\ (effective_user_id update = user_id b ->
       events (handle_command env2 update b) = [ReplyText msg_already_running]))
  /\ (effective_user_id update = user_id b ->
      is_running_flag (agent b) = false ->
      output_monitor_task b = false ->
      spawn env1 = StartOk master slave ->
      events (handle_all handle_command [(env1, update); (env2, update)] b)
      = [Call_start; ReplyText msg_started; CreateTask;
         ReplyText msg_already_running]
      /\ count_events is_create_task
           (events (handle_all handle_command [(env1, update); (env2, update)] b))
         = 1
      /\ count_events is_start
           (events (handle_all handle_command [(env1, update); (env2, update)] b))
         = 1).
Proof.
  intros Ht. split.
  - intros Hrun.
    destruct (Z.eqb_spec (effective_user_id update) (user_id b)) as [Hu|Hu].
    + rewrite (start_while_running env2 update b Hu Ht Hrun).
      repeat split; reflexivity.
    + rewrite (command_unauthorized env2 update b Hu).
      repeat split; try reflexivity. intros H. now elim Hu.
  - intros Hu Hrun Htask Hspawn.
    assert (Hev :
      events (handle_all handle_command [(env1, update); (env2, update)] b)
      = [Call_start; ReplyText msg_started; CreateTask;
         ReplyText msg_already_running]).
    { cbn [handle_all]. unfold bind at 1.
      rewrite (start_while_stopped env1 update b master slave Hu Ht Hrun Htask Hspawn).
      unfold bind at 1.
      rewrite start_while_running; [reflexivity | exact Hu | exact Ht | reflexivity]. }
    rewrite Hev. repeat split; reflexivity.
Qed.

Lemma start_twice_launches_one_relay_loop_witness :
  let env := Sample.quiet WriteOk in
  let b := Sample.bridge (PTYAgent.init Sample.cline_config) in
  count_events is_create_task
    (events (handle_all handle_command
               [(env, Sample.says (lit "/start")); (env, Sample.says (lit "/start"))] b))
  = 1.
Proof.
  intros env b.
  destruct (start_twice_launches_one_relay_loop env env
              (Sample.says (lit "/start")) b 5 6) as [_ H];
    [reflexivity |].
  destruct H as (_ & Hone & _);
    [reflexivity | reflexivity | reflexivity | reflexivity |].
  exact Hone.
Defined.

(* ================================================================== *)
(** * handle_message *)
(* ================================================================== *)

Lemma lstrip_xs (n : nat) : lstrip (repeat 120%N n) = repeat 120%N n.
Proof. destruct n; reflexivity. Qed.

Lemma strip_xs (n : nat) : strip (repeat 120%N n) = repeat 120%N n.
Proof.
  unfold strip, rstrip. now rewrite lstrip_xs, rev_repeat, lstrip_xs, rev_repeat.
Qed.

Lemma encode_xs (n : nat) : encode (repeat 120%N n) = Some (repeat 120%N n).
Proof.
  induction n as [|n IH]; [reflexivity|].
  cbn [repeat encode]. rewrite IH. reflexivity.
Qed.

(** A message from the authorized user to a running agent, when nothing
    is queued and nothing arrives during the wait: the trimmed text goes
    to [send_command], whose result is dropped, and the acknowledgment
    follows. *)
Lemma handle_message_forwards (lower : pystr -> pystr) (env : Env)
    (update : Update) (b : AgentChatBridge.t) :
  effective_user_id update = user_id b ->
  is_running_flag (agent b) = true ->
  arrivals env = [] ->
  output_queue (agent b) = [] ->
  handle_message lower env update b
  = (tt,
     set_agent (state (send_command env (strip (text update)) (agent b))) b,
     events (send_command env (strip (text update)) (agent b))
     ++ [ReplyText (msg_command_sent (strip (text update)))]).
Proof.
  intros Hu Hrun Harr Hq. unfold handle_message. run_m.
  rewrite Hu, Z.eqb_refl. cbn [negb]. run_m. rewrite Hrun. cbn [negb].
  rewrite set_agent_same, Harr. cbn [_output_reader]. unfold get_output. open_m.
  pose proof (send_command_state env (strip (text update)) (agent b) Hrun) as Hst.
  destruct (send_command env (strip (text update)) (agent b)) as [[r a'] evs].
  unfold state in Hst. cbn [fst snd] in Hst. subst a'.
  cbn [output_queue set_prompt agent set_agent]. rewrite Hq.
  reflexivity.
Qed.

(** C4 (the code at the failing input).  Whatever maximum [n] is meant,
    a message of [n + 1] characters from the authorized user is handed to
    [send_command], written to the terminal and acknowledged as sent: the
    handler has no size check. *)
Theorem oversize_message_is_forwarded (lower : pystr -> pystr) (n : nat) :
  events (handle_message lower (Sample.quiet WriteOk)
            (Sample.says (repeat 120%N (S n)))
            (Sample.bridge (Sample.running Sample.cline_config false [] [])))
  = [Call_send_command (repeat 120%N (S n));
     OsWrite 5 (repeat 120%N (S n) ++ CRLF);
     ReplyText (msg_command_sent (repeat 120%N (S n)))].
Proof.
  rewrite handle_message_forwards by reflexivity.
  cbn [events snd Sample.says text]. rewrite strip_xs.
  rewrite (send_command_ok (Sample.quiet WriteOk) (repeat 120%N (S n)) _
             5%Z (repeat 120%N (S n)));
    [reflexivity | reflexivity | reflexivity | apply encode_xs | reflexivity].
Qed.

(** C5 (the code at the failing input).  Two messages of the authorized
    user handled with no time in between both reach [send_command] and
    both are acknowledged: the handler keeps no time of the last message
    and never answers with a wait notice. *)
Theorem second_message_is_not_rate_limited (lower : pystr -> pystr) :
  events (handle_all (handle_message lower)
            [(Sample.quiet WriteOk, Sample.says (lit "First message"));
             (Sample.quiet WriteOk, Sample.says (lit "Second message"))]
            (Sample.bridge (Sample.running Sample.cline_config false [] [])))
  = [Call_send_command (lit "First message");
     OsWrite 5 (lit "First message" ++ CRLF);
     ReplyText (msg_command_sent (lit "First message"));
     Call_send_command (lit "Second message");
     OsWrite 5 (lit "Second message" ++ CRLF);
     ReplyText (msg_command_sent (lit "Second message"))]
  /\ count_events is_send_command
       (events (handle_all (handle_message lower)
                  [(Sample.quiet WriteOk, Sample.says (lit "First message"));
                   (Sample.quiet WriteOk, Sample.says (lit "Second message"))]
                  (Sample.bridge (Sample.running Sample.cline_config false [] []))))
     = 2.
Proof. split; vm_compute; reflexivity. Qed.

(** C8 (the code at the failing input).  When the terminal write raises,
    [send_command] returns the error text, and [handle_message] answers
    with the same "Command sent" acknowledgment as after a successful
    write; no error notice is sent. *)
Theorem write_failure_is_acknowledged_as_sent (lower : pystr -> pystr) :
  result (send_command (Sample.quiet (WriteRaises Sample.io_error)) (lit "ls")
            (Sample.running Sample.cline_config false [] []))
  = lit "Error: " ++ Sample.io_error
  /\ events (handle_message lower (Sample.quiet (WriteRaises Sample.io_error))
               (Sample.says (lit "ls"))
               (Sample.bridge (Sample.running Sample.cline_config false [] [])))
     = [Call_send_command (lit "ls"); ReplyText (msg_command_sent (lit "ls"))]
  /\ events (handle_message lower (Sample.quiet WriteOk)
               (Sample.says (lit "ls"))
               (Sample.bridge (Sample.running Sample.cline_config false [] [])))
     = [Call_send_command (lit "ls"); OsWrite 5 (lit "ls" ++ CRLF);
        ReplyText (msg_command_sent (lit "ls"))].
Proof. repeat split; vm_compute; reflexivity. Qed.

(* ================================================================== *)
(** * _output_monitor *)
(* ================================================================== *)

Lemma process_output_events (lower : pystr -> pystr) (env : Env)
    (output : pystr) (a : PTYAgent.t) :
  events (_process_output lower env output a) = [].
Proof.
  unfold _process_output. open_m.
  destruct (negb (is_welcome_screen lower (config a) (strip_ansi_codes output))
            && negb (is_mode_switch lower (config a) (strip_ansi_codes output))
            && is_mostly_empty_ui (strip_ansi_codes output)); [reflexivity|].
  destruct (is_prompt (strip_ansi_codes output)); reflexivity.
Qed.

Lemma output_reader_events (lower : pystr -> pystr) (env : Env)
    (chunks : list pystr) :
  forall a, events (_output_reader lower env chunks a) = [].
Proof.
  induction chunks as [|output chunks IH]; intros a; [reflexivity|].
  cbn [_output_reader]. unfold bind at 1 2, gets. cbv beta iota.
  destruct (negb (stop_reading a) && is_running_flag a); [|reflexivity].
  unfold bind.
  pose proof (process_output_events lower env output a) as Hp.
  destruct (_process_output lower env output a) as [[u a1] e1].
  unfold events in Hp. cbn [snd] in Hp. subst e1.
  specialize (IH a1).
  destruct (_output_reader lower env chunks a1) as [[u' a2] e2].
  unfold events in *. cbn [snd] in *. now subst e2.
Qed.

Lemma get_output_events (env : Env) (a : PTYAgent.t) :
  events (get_output env a) = [].
Proof.
  unfold get_output. open_m.
  destruct (output_queue a) as [|f q]; [reflexivity|].
  destruct (drain [] (f :: q)) as [combined queue'].
  destruct (strip combined); reflexivity.
Qed.

Section Monitor.

Variable lower : pystr -> pystr.
Variable hash : pystr -> Z.

(** One iteration of the loop, unfolded. *)
Lemma monitor_loop_step (env : Env) (schedule : list Env) (w : list Z)
    (b : AgentChatBridge.t) :
  monitor_loop lower hash (env :: schedule) w b
  = if negb (is_running_flag (agent b)) then ([], b, [])
    else
      match polled lower env b with
      | Some m =>
          let v := verdict_on hash w (after_poll lower env b) m in
          let r := monitor_loop lower hash schedule (remember w v)
                     (after_poll lower env b) in
          (v :: result r, state r,
           relay_event (user_id (after_poll lower env b)) v ++ events r)
      | None => monitor_loop lower hash schedule w (after_poll lower env b)
      end.
Proof.
  unfold polled, after_poll, after_reader, verdict_on, relay_event.
  cbn [monitor_loop]. unfold bind at 1. unfold on_agent at 1, zoom, PTYAgent.is_running, gets.
  cbv beta iota. rewrite set_agent_same.
  destruct (negb (is_running_flag (agent b))); [reflexivity|].
  unfold bind at 1. unfold on_agent at 1, zoom. cbv beta iota.
  pose proof (output_reader_events lower env (arrivals env) (agent b)) as Hr.
  destruct (_output_reader lower env (arrivals env) (agent b)) as [[u a1] e1].
  unfold events, state in *. cbn [fst snd] in *. subst e1.
  unfold bind at 1. unfold on_agent at 1, zoom. cbv beta iota.
  cbn [agent set_agent].
  pose proof (get_output_events env a1) as Hg.
  destruct (get_output env a1) as [[out a2] e2].
  unfold events, result in *. cbn [fst snd] in *. subst e2.
  destruct out as [m|].
  - open_m. cbn [agent set_agent user_id].
    destruct (filtered (judge hash (config a2) w (content m))); cbv beta iota;
      destruct (monitor_loop lower hash schedule _ _) as [[rest b'] evs];
      cbn [fst snd app]; now rewrite app_nil_r.
  - destruct (monitor_loop lower hash schedule w _) as [[rest b'] evs].
    reflexivity.
Qed.

Lemma held_in (k : nat) (h : Z) (w : list Z) :
  held k h w -> existsb (Z.eqb h) w = true.
Proof.
  intros (before & after & -> & _). apply existsb_exists.
  exists h. split; [|apply Z.eqb_refl].
  apply in_or_app. right. now left.
Qed.

Lemma held_later (k k' : nat) (h : Z) (w : list Z) :
  held k h w -> k <= k' -> held k' h w.
Proof.
  intros (before & after & Hw & Hk) Hle. exists before, after.
  split; [exact Hw | lia].
Qed.

(** A fingerprint survives an append as long as fewer than nine were
    recorded after it. *)
Lemma held_append (k : nat) (h x : Z) (w : list Z) :
  held k h w -> S k < RECENT_MAXLEN ->
  held (S k) h (deque_append RECENT_MAXLEN w x).
Proof.
  intros (before & after & -> & Hk) Hroom. unfold deque_append.
  destruct (Nat.ltb_spec (length (before ++ h :: after)) RECENT_MAXLEN) as [_|Hfull].
  - exists before, (after ++ [x]). rewrite <- app_assoc. cbn [app].
    split; [reflexivity|]. rewrite length_app. cbn [length]. lia.
  - destruct before as [|c before].
    + cbn [app length] in Hfull. lia.
    + exists before, (after ++ [x]). cbn [app tl]. rewrite <- app_assoc.
      cbn [app]. split; [reflexivity|]. rewrite length_app. cbn [length]. lia.
Qed.

Lemma held_new (h : Z) (w : list Z) :
  held 0 h (deque_append RECENT_MAXLEN w h).
Proof.
  unfold deque_append.
  destruct (length w <? RECENT_MAXLEN);
    [exists w, [] | exists (tl w), []]; split; auto.
Qed.

Lemma remember_held (k : nat) (h : Z) (w : list Z) (v : verdict) :
  held k h w -> S k < RECENT_MAXLEN -> held (S k) h (remember w v).
Proof.
  intros Hh Hroom. unfold remember.
  destruct (filtered v); [destruct (repetitive v)|];
    try (now apply held_append).
  apply (held_later k); [exact Hh | lia].
Qed.

Lemma remember_relayed (w : list Z) (v : verdict) :
  relayed v = true -> held 0 (fingerprint v) (remember w v).
Proof.
  unfold relayed, remember. destruct (filtered v); [discriminate|].
  intros _. apply held_new.
Qed.

(** A block whose fingerprint is in the window is filtered. *)
Lemma judge_held (cfg : AgentConfig) (w : list Z) (c : pystr) (k : nat) :
  held k (fingerprint (judge hash cfg w c)) w ->
  filtered (judge hash cfg w c) = true.
Proof.
  intros Hh. apply held_in in Hh. revert Hh.
  unfold judge. cbn [fingerprint filtered]. intros ->. reflexivity.
Qed.

Lemma monitor_suppresses_held (schedule : list Env) :
  forall (w : list Z) (b : AgentChatBridge.t) (k : nat) (h : Z) (j : nat)
         (v : verdict),
    held k h w ->
    nth_error (result (monitor_loop lower hash schedule w b)) j = Some v ->
    fingerprint v = h ->
    j + k < RECENT_MAXLEN ->
    relayed v = false.
Proof.
  induction schedule as [|env schedule IH]; intros w b k h j v Hh Hj Hv Hk.
  - destruct j; discriminate.
  - rewrite monitor_loop_step in Hj.
    destruct (negb (is_running_flag (agent b))); [destruct j; discriminate|].
    destruct (polled lower env b) as [m|]; [|now apply (IH _ _ k h j v Hh Hj)].
    cbv zeta in Hj. unfold result at 1 in Hj. cbn [fst] in Hj.
    destruct j as [|j]; cbn [nth_error] in Hj.
    + injection Hj as <-. unfold relayed, verdict_on in *.
      rewrite (judge_held _ w _ k); [reflexivity|]. now rewrite Hv.
    + refine (IH _ _ (S k) h j v _ Hj Hv _); [|lia].
      apply remember_held; [exact Hh | lia].
Qed.

Lemma monitor_dedup (schedule : list Env) :
  forall (w : list Z) (b : AgentChatBridge.t) (i j : nat) (vi vj : verdict),
    i < j -> j <= i + RECENT_MAXLEN ->
    nth_error (result (monitor_loop lower hash schedule w b)) i = Some vi ->
    nth_error (result (monitor_loop lower hash schedule w b)) j = Some vj ->
    fingerprint vi = fingerprint vj ->
    relayed vi = true ->
    relayed vj = false.
Proof.
  induction schedule as [|env schedule IH]; intros w b i j vi vj Hij Hwin Hi Hj Hfp Hsent.
  - destruct i; discriminate.
  - rewrite monitor_loop_step in Hi, Hj.
    destruct (negb (is_running_flag (agent b))); [destruct i; discriminate|].
    destruct (polled lower env b) as [m|];
      [|now apply (IH _ _ i j vi vj Hij Hwin Hi Hj)].
    cbv zeta in Hi, Hj. unfold result at 1 in Hi. unfold result at 1 in Hj.
    cbn [fst] in Hi, Hj.
    destruct j as [|j]; [lia|]. cbn [nth_error] in Hj.
    destruct i as [|i]; cbn [nth_error] in Hi.
    + injection Hi as <-.
      refine (monitor_suppresses_held schedule _ _ 0 (fingerprint vj) j vj
                _ Hj eq_refl _); [|lia].
      rewrite <- Hfp. now apply remember_relayed.
    + refine (IH _ _ i j vi vj _ _ Hi Hj Hfp Hsent); lia.
Qed.

Lemma monitor_events (schedule : list Env) :
  forall (w : list Z) (b : AgentChatBridge.t),
    events (monitor_loop lower hash schedule w b)
    = flat_map (relay_event (user_id b))
               (result (monitor_loop lower hash schedule w b)).
Proof.
  induction schedule as [|env schedule IH]; intros w b; [reflexivity|].
  rewrite monitor_loop_step.
  destruct (negb (is_running_flag (agent b))); [reflexivity|].
  destruct (polled lower env b) as [m|].
  - cbv zeta. unfold events at 1, result at 2. cbn [fst snd flat_map].
    now rewrite IH.
  - now rewrite IH.
Qed.

End Monitor.

(** Two blocks with the same fingerprint, one after the other: the first
    is dropped as UI chrome (three indicators in at most 50 characters)
    without being recorded, the second, 70 characters long, is sent. *)
Lemma relay_later_occurrence_sent :
  let schedule := [Sample.hears [Sample.frame 1]; Sample.hears [Sample.frame 60]] in
  let b := Sample.bridge (Sample.running Sample.cline_config false [] []) in
  let run := _output_monitor Sample.lower_ascii Sample.hash_poly schedule b in
  map block (result run) = [Sample.frame 1; Sample.frame 60]
  /\ (exists h, map fingerprint (result run) = [h; h])
  /\ map relayed (result run) = [false; true]
  /\ events run = [BotSend Sample.user (Sample.frame 60)].
Proof.
  intros schedule b run. split; [vm_compute; reflexivity|].
  split; [eexists; vm_compute; reflexivity|].
  split; vm_compute; reflexivity.
Qed.

(** C6.  In every run of the monitor, of two blocks with the same
    fingerprint (the hash of the whitespace-normalized text) that are at
    most ten blocks apart, the later one is not relayed once the earlier
    one has been: its fingerprint is still in the window.  The transport
    receives exactly the relayed blocks, in order. *)
Theorem relay_dedup_window (lower : pystr -> pystr) (hash : pystr -> Z)
    (schedule : list Env) (b : AgentChatBridge.t) (i j : nat)
    (vi vj : verdict) :
  i < j -> j <= i + RECENT_MAXLEN ->
  nth_error (result (_output_monitor lower hash schedule b)) i = Some vi ->
  nth_error (result (_output_monitor lower hash schedule b)) j = Some vj ->
  fingerprint vi = fingerprint vj ->
  relayed vi = true ->
  relayed vj = false
  /\ events (_output_monitor lower hash schedule b)
     = flat_map (relay_event (user_id b))
                (result (_output_monitor lower hash schedule b)).
Proof.
  intros Hij Hwin Hi Hj Hfp Hsent. split.
  - exact (monitor_dedup lower hash schedule [] b i j vi vj
             Hij Hwin Hi Hj Hfp Hsent).
  - apply monitor_events.
Qed.

Lemma relay_dedup_window_witness :
  let schedule :=
    [Sample.hears [lit "hello world" ++ LF];
     Sample.hears [lit "  hello   world "];
     Sample.hears [lit "ok"]] in
  let b := Sample.bridge (Sample.running Sample.cline_config false [] []) in
  let run := _output_monitor Sample.lower_ascii Sample.hash_poly schedule b in
  map relayed (result run) = [true; false; true]
  /\ events run = [BotSend Sample.user (lit "hello world");
                   BotSend Sample.user (lit "ok")].
Proof.
  intros schedule b run.
  assert (Hall : map relayed (result run) = [true; false; true])
    by (vm_compute; reflexivity).
  split; [exact Hall|].
  destruct (nth_error (result run) 0) as [vi|] eqn:Hi;
    [|vm_compute in Hi; discriminate].
  destruct (nth_error (result run) 1) as [vj|] eqn:Hj;
    [|vm_compute in Hj; discriminate].
  destruct (relay_dedup_window Sample.lower_ascii Sample.hash_poly schedule b
              0 1 vi vj) as [_ Hev].
  - apply Nat.ltb_lt. reflexivity.
  - apply Nat.leb_le. reflexivity.
  - exact Hi.
  - exact Hj.
  - vm_compute in Hi, Hj. injection Hi as <-. injection Hj as <-. reflexivity.
  - vm_compute in Hi. injection Hi as <-. reflexivity.
  - fold run in Hev. rewrite Hev. vm_compute. reflexivity.
Defined.

(* ================================================================== *)
(** * strip_ansi_codes *)
(* ================================================================== *)

(** A greedy star over a character class takes the whole run of
    characters of the class when the continuation accepts what follows. *)
Lemma star_class_run {A} (p : N -> bool) (k : pystr -> option A) (x : A)
    (taken rest : pystr) :
  forallb p taken = true ->
  match rest with [] => True | c :: _ => p c = false end ->
  k rest = Some x ->
  run (Star (Chr p)) (taken ++ rest) k = Some x.
Proof.
  intros Htaken Hstop Hk. cbn [run].
  assert (Hfuel : length taken <= length (taken ++ rest))
    by (rewrite length_app; lia).
  revert Hfuel. generalize (length (taken ++ rest)) as fuel.
  induction taken as [|c taken IH]; intros fuel Hfuel.
  - cbn [app]. destruct fuel as [|fuel]; [exact Hk|].
    destruct rest as [|c rest]; [exact Hk|]. rewrite Hstop. exact Hk.
  - cbn [forallb] in Htaken. apply andb_true_iff in Htaken as [Hc Htaken].
    destruct fuel as [|fuel]; [cbn in Hfuel; lia|].
    cbn [app]. rewrite Hc.
    replace (length (taken ++ rest) <? length (c :: taken ++ rest)) with true
      by (symmetry; apply Nat.ltb_lt; cbn [length]; lia).
    rewrite (IH Htaken fuel) by (cbn in Hfuel; lia). reflexivity.
Qed.

Lemma class_disjoint_head (p q : N -> bool) (s rest : pystr) (c : N) :
  (forall x, q x = true -> p x = false) ->
  forallb q s = true -> q c = true ->
  match s ++ c :: rest with [] => True | y :: _ => p y = false end.
Proof.
  intros Hpq Hs Hc. destruct s as [|y s]; cbn [app].
  - now apply Hpq.
  - cbn [forallb] in Hs. apply andb_true_iff in Hs as [Hy _]. now apply Hpq.
Qed.

Lemma between_disjoint (lo1 hi1 lo2 hi2 x : N) :
  (hi2 < lo1)%N \/ (hi1 < lo2)%N ->
  between lo2 hi2 x = true -> between lo1 hi1 x = false.
Proof.
  unfold between. intros Hd H. apply andb_true_iff in H as [H1 H2].
  apply N.leb_le in H1, H2. apply andb_false_iff.
  destruct Hd; [left | right]; apply N.leb_gt; lia.
Qed.

(** The pattern matches a whole CSI sequence and nothing after it. *)
Lemma ansi_escape_matches_csi (params inter : pystr) (final : N) (rest : pystr) :
  forallb (between 48 63) params = true ->
  forallb (between 32 47) inter = true ->
  between 64 126 final = true ->
  match_prefix ansi_escape (csi params inter final ++ rest) = Some rest.
Proof.
  intros Hp Hi Hf. unfold match_prefix, ansi_escape, csi.
  cbn [app run chr range seq_of N.eqb Pos.eqb between N.leb N.compare
       Pos.compare Pos.compare_cont andb orb].
  rewrite <- !app_assoc. cbn [app].
  apply star_class_run; [exact Hp | |].
  - apply (class_disjoint_head (between 48 63) (fun x => between 32 47 x || between 64 126 x)
             inter rest final).
    + intros x Hx. apply orb_true_iff in Hx as [Hx|Hx];
        [apply (between_disjoint 48 63 32 47 x) | apply (between_disjoint 48 63 64 126 x)];
        auto; [left | right]; reflexivity.
    + apply forallb_forall. intros y Hy.
      rewrite forallb_forall in Hi. now rewrite (Hi y Hy).
    + now rewrite Hf, orb_true_r.
  - apply star_class_run; [exact Hi | |].
    + apply (between_disjoint 32 47 64 126 final); [right; reflexivity | exact Hf].
    + cbn [run]. now rewrite Hf.
Qed.

Lemma ansi_escape_needs_escape (c : N) (s : pystr) :
  (c =? 27)%N = false -> match_prefix ansi_escape (c :: s) = None.
Proof.
  intros Hc. unfold match_prefix, ansi_escape. cbn [run chr].
  now rewrite N.eqb_sym, Hc.
Qed.

Lemma remove_all_plain_prefix (plain s : pystr) :
  forall fuel,
    no_escape plain = true ->
    length (plain ++ s) <= fuel ->
    remove_all fuel ansi_escape (plain ++ s)
    = plain ++ remove_all (fuel - length plain) ansi_escape s.
Proof.
  induction plain as [|c plain IH]; intros fuel Hplain Hfuel.
  - cbn [app length]. now rewrite Nat.sub_0_r.
  - cbn [no_escape forallb] in Hplain.
    apply andb_true_iff in Hplain as [Hc Hplain]. apply negb_true_iff in Hc.
    cbn [app length] in *. destruct fuel as [|fuel]; [lia|].
    cbn [remove_all]. rewrite (ansi_escape_needs_escape c _ Hc).
    rewrite (IH fuel Hplain) by lia. reflexivity.
Qed.

Lemma remove_all_length (r : regex) (fuel : nat) :
  forall s, length (remove_all fuel r s) <= length s.
Proof.
  induction fuel as [|fuel IH]; intros s; cbn [remove_all]; [lia|].
  destruct s as [|c s]; [cbn; lia|].
  destruct (match_prefix r (c :: s)) as [rest|].
  - destruct (Nat.ltb_spec (length rest) (length (c :: s))) as [Hlt|_].
    + specialize (IH rest). lia.
    + specialize (IH s). cbn [length]. lia.
  - specialize (IH s). cbn [length]. lia.
Qed.

(** X1.  Text without an escape character passes through
    [strip_ansi_codes] unchanged, and stripping never makes a text
    longer. *)
Theorem strip_ansi_codes_plain (s : pystr) :
  length (strip_ansi_codes s) <= length s
  /\ (no_escape s = true -> strip_ansi_codes s = s).
Proof.
  split; [apply remove_all_length|].
  intros Hs. unfold strip_ansi_codes, sub_empty.
  pose proof (remove_all_plain_prefix s [] (length s) Hs) as H.
  rewrite app_nil_r in H. rewrite H by lia.
  rewrite Nat.sub_diag. cbn [remove_all]. apply app_nil_r.
Qed.

Lemma strip_ansi_codes_plain_witness :
  strip_ansi_codes (lit "total 12 files") = lit "total 12 files".
Proof.
  apply (strip_ansi_codes_plain (lit "total 12 files")). reflexivity.
Defined.

(** X2.  A CSI control sequence (ESC, bracket, parameters in [0-?],
    intermediates in [ -/], a final character in [@-~]) is removed whole:
    the text before it, when it has no escape character, is kept, and
    stripping goes on with the text after it. *)
Theorem strip_ansi_codes_removes_csi (before params inter : pystr) (final : N)
    (after : pystr) :
  no_escape before = true ->
  forallb (between 48 63) params = true ->
  forallb (between 32 47) inter = true ->
  between 64 126 final = true ->
  strip_ansi_codes (before ++ csi params inter final ++ after)
  = before ++ strip_ansi_codes after.
Proof.
  intros Hb Hp Hi Hf. unfold strip_ansi_codes, sub_empty.
  rewrite (remove_all_plain_prefix before _ _ Hb) by lia.
  f_equal. rewrite length_app, Nat.add_comm, Nat.add_sub.
  assert (Hlen : length after < length (csi params inter final ++ after)).
  { rewrite length_app. unfold csi. cbn [app length]. lia. }
  pose proof (ansi_escape_matches_csi params inter final after Hp Hi Hf) as Hm.
  destruct (csi params inter final ++ after) as [|c s]; [cbn in Hlen; lia|].
  cbn [length remove_all]. rewrite Hm.
  cbn [length] in Hlen.
  destruct (Nat.ltb_spec (length after) (S (length s))) as [_|H]; [|lia].
  apply remove_all_fuel; lia.
Qed.

Lemma strip_ansi_codes_removes_csi_witness :
  strip_ansi_codes
    (lit "ok " ++ csi (lit "1;31") [] 109 ++ lit "error" ++ csi (lit "0") [] 109)
  = lit "ok error".
Proof.
  rewrite (strip_ansi_codes_removes_csi (lit "ok ") (lit "1;31") [] 109
             (lit "error" ++ csi (lit "0") [] 109));
    [ | reflexivity | reflexivity | reflexivity | reflexivity].
  vm_compute. reflexivity.
Defined.

(* ================================================================== *)
(** * The output queue and the prompt state *)
(* ================================================================== *)

(** [_process_output] by cases. *)
Lemma process_output_state (lower : pystr -> pystr) (env : Env)
    (output : pystr) (a : PTYAgent.t) :
  state (_process_output lower env output a)
  = if negb (is_welcome_screen lower (config a) (strip_ansi_codes output))
       && negb (is_mode_switch lower (config a) (strip_ansi_codes output))
       && is_mostly_empty_ui (strip_ansi_codes output)
    then a
    else
      set_output_queue
        (deque_append OUTPUT_QUEUE_MAXLEN (output_queue a) (strip_ansi_codes output))
        (if is_prompt (strip_ansi_codes output)
         then set_prompt true (strip (strip_ansi_codes output)) (time_time env) a
         else a).
Proof.
  unfold _process_output. cbn [bind gets modify ret state fst snd].
  destruct (negb (is_welcome_screen lower (config a) (strip_ansi_codes output))
            && negb (is_mode_switch lower (config a) (strip_ansi_codes output))
            && is_mostly_empty_ui (strip_ansi_codes output)); [reflexivity|].
  destruct (is_prompt (strip_ansi_codes output)); reflexivity.
Qed.

Lemma deque_append_bound {A} (maxlen : nat) (q : list A) (x : A) :
  0 < maxlen -> length q <= maxlen ->
  length (deque_append maxlen q x) <= maxlen.
Proof.
  intros Hpos Hq. unfold deque_append.
  destruct (Nat.ltb_spec (length q) maxlen) as [Hlt|Hge];
    rewrite length_app; cbn [length]; [lia|].
  destruct q; cbn [tl length] in *; lia.
Qed.

Lemma queue_room : 0 < OUTPUT_QUEUE_MAXLEN.
Proof. apply Nat.ltb_lt. reflexivity. Qed.

Lemma process_output_bound (lower : pystr -> pystr) (env : Env)
    (output : pystr) (a : PTYAgent.t) :
  length (output_queue a) <= OUTPUT_QUEUE_MAXLEN ->
  length (output_queue (state (_process_output lower env output a)))
  <= OUTPUT_QUEUE_MAXLEN.
Proof.
  intros Hq. rewrite process_output_state.
  destruct (negb _ && negb _ && _); [exact Hq|].
  cbn [output_queue set_output_queue].
  apply deque_append_bound; [apply queue_room | exact Hq].
Qed.

Lemma process_output_flags (lower : pystr -> pystr) (env : Env)
    (output : pystr) (a : PTYAgent.t) :
  is_running_flag (state (_process_output lower env output a)) = is_running_flag a
  /\ stop_reading (state (_process_output lower env output a)) = stop_reading a.
Proof.
  rewrite process_output_state.
  destruct (negb _ && negb _ && _); [split; reflexivity|].
  destruct (is_prompt _); split; reflexivity.
Qed.

(** Running the bound state of a monadic sequence. *)
Lemma state_bind {S A B} (m : M S A) (f : A -> M S B) (s : S) :
  state (bind m f s) = state (f (result (m s)) (state (m s))).
Proof.
  unfold bind, state, result. destruct (m s) as [[x s1] e1]. cbn [fst snd].
  destruct (f x s1) as [[y s2] e2]. reflexivity.
Qed.

Lemma output_reader_bound (lower : pystr -> pystr) (env : Env)
    (chunks : list pystr) :
  forall a,
    length (output_queue a) <= OUTPUT_QUEUE_MAXLEN ->
    length (output_queue (state (_output_reader lower env chunks a)))
    <= OUTPUT_QUEUE_MAXLEN.
Proof.
  induction chunks as [|output chunks IH]; intros a Hq; [exact Hq|].
  cbn [_output_reader]. rewrite !state_bind. cbn [gets result state fst snd].
  destruct (negb (stop_reading a) && is_running_flag a); [|exact Hq].
  rewrite state_bind. apply IH. now apply process_output_bound.
Qed.

Lemma reader_loop_bound (lower : pystr -> pystr) (env : Env)
    (polls : list poll_outcome) :
  forall error_count a,
    length (output_queue a) <= OUTPUT_QUEUE_MAXLEN ->
    length (output_queue (state (reader_loop lower env error_count polls a)))
    <= OUTPUT_QUEUE_MAXLEN.
Proof.
  induction polls as [|p polls IH]; intros error_count a Hq; [exact Hq|].
  cbn [reader_loop]. rewrite !state_bind. cbn [gets result state fst snd].
  destruct (negb (stop_reading a) && is_running_flag a); [|exact Hq].
  destruct p as [|output| |].
  - now apply IH.
  - rewrite state_bind. apply IH. now apply process_output_bound.
  - exact Hq.
  - destruct (10 <? S error_count); [exact Hq | now apply IH].
Qed.

Lemma drain_suffix (queue : list pystr) (a : PTYAgent.t) (env : Env) :
  output_queue a = queue ->
  length queue <= OUTPUT_QUEUE_MAXLEN ->
  exists taken rest,
    queue = taken ++ rest
    /\ drain [] queue = (concat taken, rest)
    /\ get_output env a
       = (option_map (message_of env a) (delivered (concat taken)),
          set_output_queue rest a, [])
    /\ (forall f q, queue = f :: q -> length f <= SOFT_CAP -> taken <> []).
Proof.
  intros Ha Hlen.
  destruct (drain_spec queue [] Hlen) as (taken & rest & Hq & Hd & _ & Hstop);
    [cbn; lia|].
  cbn [app] in Hd, Hstop. exists taken, rest.
  split; [exact Hq|]. split; [exact Hd|]. split.
  - apply get_output_drained. now rewrite Ha.
  - intros f q Hfq Hfit Hnil. subst taken. cbn [app concat length] in *.
    destruct Hstop as [H|[H|(g & rest' & H1 & H2)]].
    + subst rest. rewrite Hfq in Hq. discriminate.
    + pose proof positive_cap. lia.
    + rewrite <- Hq, Hfq in H1. injection H1 as <- _. lia.
Qed.

(** X3.  The output queue never holds more than 100 fragments: the reader
    (with or without its error counter) and [get_output] keep the bound,
    and [send_command], [start] and [stop] do not touch the queue. *)
Theorem output_queue_bounded (lower : pystr -> pystr) (env : Env)
    (a : PTYAgent.t) :
  length (output_queue a) <= OUTPUT_QUEUE_MAXLEN ->
  (forall chunks,
      length (output_queue (state (_output_reader lower env chunks a)))
      <= OUTPUT_QUEUE_MAXLEN)
  /\ (forall polls error_count,
        length (output_queue (state (reader_loop lower env error_count polls a)))
        <= OUTPUT_QUEUE_MAXLEN)
  /\ length (output_queue (state (get_output env a))) <= length (output_queue a)
  /\ (forall command,
        output_queue (state (send_command env command a)) = output_queue a)
  /\ output_queue (state (PTYAgent.start env a)) = output_queue a
  /\ output_queue (state (PTYAgent.stop a)) = output_queue a.
Proof.
  intros Hq. split; [|split; [|split; [|split; [|split]]]].
  - intros chunks. now apply output_reader_bound.
  - intros polls error_count. now apply reader_loop_bound.
  - destruct (drain_suffix (output_queue a) a env eq_refl Hq)
      as (taken & rest & Hsplit & _ & Hget & _).
    rewrite Hget. cbn [state fst snd output_queue set_output_queue].
    rewrite Hsplit, length_app. lia.
  - intros command. destruct (is_running_flag a) eqn:Hrun.
    + now rewrite (send_command_state env command a Hrun).
    + now rewrite (send_command_not_running env command a Hrun).
  - unfold PTYAgent.start. rewrite state_bind. cbn [emit result state fst snd].
    destruct (spawn env); reflexivity.
  - reflexivity.
Qed.

Lemma output_queue_bounded_witness :
  let a := Sample.running Sample.no_config false [] (repeat (lit "line") 100) in
  length (output_queue
            (state (_output_reader Sample.lower_ascii (Sample.quiet WriteOk)
                      [lit "one"; lit "two"] a)))
  <= 100.
Proof.
  intros a.
  destruct (output_queue_bounded Sample.lower_ascii (Sample.quiet WriteOk) a)
    as [H _]; [apply Nat.leb_le; vm_compute; reflexivity|].
  exact (H [lit "one"; lit "two"]).
Defined.


(** X4.  A fragment with more than three characters left after trimming
    is never filtered, whatever the configuration: it becomes the newest
    element of the queue, and when the queue is full its oldest fragment
    is discarded to make room. *)
Theorem substantive_fragment_enqueued (lower : pystr -> pystr) (env : Env)
    (output : pystr) (a : PTYAgent.t) :
  3 < length (strip (strip_ansi_codes output)) ->
  (length (output_queue a) < OUTPUT_QUEUE_MAXLEN ->
   output_queue (state (_process_output lower env output a))
   = output_queue a ++ [strip_ansi_codes output])
  /\ (length (output_queue a) = OUTPUT_QUEUE_MAXLEN ->
      output_queue (state (_process_output lower env output a))
      = tl (output_queue a) ++ [strip_ansi_codes output]
      /\ length (output_queue (state (_process_output lower env output a)))
         = OUTPUT_QUEUE_MAXLEN).
Proof.
  intros Hlong.
  assert (Hui : is_mostly_empty_ui (strip_ansi_codes output) = false).
  { unfold is_mostly_empty_ui. apply andb_false_iff. right.
    apply Nat.leb_gt. exact Hlong. }
  rewrite process_output_state, Hui, andb_false_r.
  assert (Hq : forall x : PTYAgent.t,
             output_queue
               (set_output_queue
                  (deque_append OUTPUT_QUEUE_MAXLEN (output_queue a)
                     (strip_ansi_codes output)) x)
             = deque_append OUTPUT_QUEUE_MAXLEN (output_queue a)
                 (strip_ansi_codes output)) by reflexivity.
  rewrite Hq. unfold deque_append. split; intros Hlen.
  - destruct (Nat.ltb_spec (length (output_queue a)) OUTPUT_QUEUE_MAXLEN);
      [reflexivity | lia].
  - destruct (Nat.ltb_spec (length (output_queue a)) OUTPUT_QUEUE_MAXLEN);
      [lia|].
    split; [reflexivity|]. rewrite length_app. cbn [length].
    pose proof queue_room.
    destruct (output_queue a); cbn [tl length] in *; lia.
Qed.

Lemma substantive_fragment_enqueued_witness :
  let a := Sample.running Sample.no_config false []
             (lit "oldest" :: repeat (lit "line") 99) in
  output_queue
    (state (_process_output Sample.lower_ascii (Sample.quiet WriteOk)
              (lit "newest") a))
  = repeat (lit "line") 99 ++ [lit "newest"].
Proof.
  intros a.
  destruct (substantive_fragment_enqueued Sample.lower_ascii
              (Sample.quiet WriteOk) (lit "newest") a) as [_ H];
    [apply Nat.ltb_lt; vm_compute; reflexivity|].
  destruct H as [H _]; [vm_compute; reflexivity|].
  exact H.
Defined.

(* ---------------------------------------------------------------- *)
(** ** Prompt detection *)

Lemma search_suffix (r : regex) (s t : pystr) :
  matches r t = true -> search r (s ++ t) = true.
Proof.
  intros Ht. induction s as [|c s IH]; cbn [app].
  - destruct t; cbn [search]; now rewrite Ht.
  - cbn [search]. rewrite IH. apply orb_true_r.
Qed.

Lemma run_seq_of_cons {A} (r : regex) (rs : list regex) (s : pystr)
    (k : pystr -> option A) :
  run (seq_of (r :: rs)) s k = run r s (fun s' => run (seq_of rs) s' k).
Proof. destruct rs; reflexivity. Qed.

Lemma run_literal {A} (cs rest : pystr) (k : pystr -> option A) :
  forallb accepts_itself cs = true ->
  run (seq_of (map chr_ci cs)) (cs ++ rest) k = k rest.
Proof.
  revert k. induction cs as [|c cs IH]; intros k Hcs; [reflexivity|].
  cbn [forallb] in Hcs. apply andb_true_iff in Hcs as [Hc Hcs].
  cbn [map]. rewrite run_seq_of_cons. cbn [app].
  unfold accepts_itself, chr_ci in Hc. unfold chr_ci at 1. cbn [run].
  rewrite Hc. now apply IH.
Qed.

Lemma literal_prompt_matches (marker : string) (trail : pystr) :
  forallb accepts_itself (lit marker) = true ->
  blank trail = true ->
  matches (to_end [lit_ci marker]) (lit marker ++ trail) = true.
Proof.
  intros Hself Hblank. unfold matches, match_prefix, to_end.
  cbn [app]. rewrite run_seq_of_cons. unfold lit_ci.
  rewrite run_literal by exact Hself.
  cbv beta. rewrite run_seq_of_cons. unfold space.
  pose proof (star_class_run is_space
                (fun s' => run (seq_of [Eos]) s' (fun rest => Some rest))
                [] trail [] Hblank I eq_refl) as H.
  rewrite app_nil_r in H. rewrite H. reflexivity.
Qed.

Lemma lstrip_app_solid (s t : pystr) (c : N) :
  is_space c = false -> lstrip (s ++ c :: t) = lstrip s ++ c :: t.
Proof.
  intros Hc. induction s as [|d s IH]; cbn [app lstrip].
  - now rewrite Hc.
  - destruct (is_space d); [exact IH | reflexivity].
Qed.

Lemma lstrip_blank_app (s t : pystr) :
  blank s = true -> lstrip (s ++ t) = lstrip t.
Proof.
  induction s as [|c s IH]; intros Hs; [reflexivity|].
  cbn [blank forallb] in Hs. apply andb_true_iff in Hs as [Hc Hs].
  cbn [app lstrip]. rewrite Hc. now apply IH.
Qed.

Lemma blank_rev (s : pystr) : blank s = true -> blank (rev s) = true.
Proof.
  unfold blank. rewrite !forallb_forall. intros H x Hx.
  apply H. now apply in_rev.
Qed.

(** Trimming keeps a text with solid ends and what precedes it, from the
    first character that is not whitespace on. *)
Lemma strip_marked (head marker trail : pystr) :
  solid_ends marker = true -> blank trail = true ->
  strip (head ++ marker ++ trail) = lstrip head ++ marker.
Proof.
  intros Hsolid Hblank. unfold solid_ends in Hsolid.
  destruct marker as [|c m] eqn:Hm; [discriminate|].
  destruct (rev (c :: m)) as [|d rm] eqn:Hrev; [discriminate|].
  apply andb_true_iff in Hsolid as [Hc Hd].
  apply negb_true_iff in Hc, Hd.
  unfold strip, rstrip. cbn [app]. rewrite (lstrip_app_solid head (m ++ trail) c Hc).
  change (c :: m ++ trail) with ((c :: m) ++ trail).
  rewrite !rev_app_distr, Hrev, <- app_assoc.
  rewrite lstrip_blank_app by now apply blank_rev.
  cbn [app lstrip]. rewrite Hd.
  change (d :: rm ++ rev (lstrip head)) with ((d :: rm) ++ rev (lstrip head)).
  rewrite <- Hrev, <- rev_app_distr, rev_involutive. reflexivity.
Qed.

Lemma literal_prompt_facts (marker : string) :
  In marker literal_prompts ->
  In (to_end [lit_ci marker]) prompt_patterns
  /\ forallb accepts_itself (lit marker) = true
  /\ solid_ends (lit marker) = true
  /\ 3 < length (lit marker).
Proof.
  unfold literal_prompts. intros H.
  repeat (destruct H as [<-|H];
          [split; [cbn [prompt_patterns In]; tauto|];
           split; [reflexivity|]; split; [reflexivity|];
           apply Nat.ltb_lt; reflexivity|]).
  destruct H.
Qed.

(** X5.  A chunk whose cleaned text ends in one of the literal prompts
    ([y/N], (y/n), [Continue?], [Password:], ...), followed at most by
    whitespace, marks the agent as waiting for input: the prompt recorded
    is the trimmed text, the time is the clock reading, and the text is
    enqueued.  A later [send_command] on the running agent clears the flag
    and the prompt again. *)
Theorem literal_prompt_sets_waiting (lower : pystr -> pystr) (env : Env)
    (output : pystr) (a : PTYAgent.t) (marker : string) (head trail : pystr) :
  In marker literal_prompts ->
  strip_ansi_codes output = head ++ lit marker ++ trail ->
  blank trail = true ->
  waiting_for_input (state (_process_output lower env output a)) = true
  /\ input_prompt (state (_process_output lower env output a))
     = lstrip head ++ lit marker
  /\ last_prompt_time (state (_process_output lower env output a))
     = time_time env
  /\ output_queue (state (_process_output lower env output a))
     = deque_append OUTPUT_QUEUE_MAXLEN (output_queue a) (strip_ansi_codes output)
  /\ (forall env' command,
        is_running_flag a = true ->
        waiting_for_input
          (state (send_command env' command
                    (state (_process_output lower env output a)))) = false
        /\ input_prompt
             (state (send_command env' command
                       (state (_process_output lower env output a)))) = []).
Proof.
  intros Hin Hclean Hblank.
  destruct (literal_prompt_facts marker Hin) as (Hpat & Hself & Hsolid & Hlen).
  assert (Hstrip : strip (strip_ansi_codes output) = lstrip head ++ lit marker).
  { rewrite Hclean. now apply strip_marked. }
  assert (Hui : is_mostly_empty_ui (strip_ansi_codes output) = false).
  { unfold is_mostly_empty_ui. apply andb_false_iff. right.
    apply Nat.leb_gt. rewrite Hstrip, length_app. lia. }
  assert (Hprompt : is_prompt (strip_ansi_codes output) = true).
  { unfold is_prompt. apply existsb_exists.
    exists (to_end [lit_ci marker]). split; [exact Hpat|].
    rewrite Hclean. apply search_suffix.
    now apply literal_prompt_matches. }
  pose proof (process_output_flags lower env output a) as [Hrun _].
  rewrite process_output_state in *. rewrite Hui, andb_false_r, Hprompt in *.
  cbn [waiting_for_input input_prompt last_prompt_time output_queue
       set_output_queue set_prompt] in *.
  split; [reflexivity|]. split; [exact Hstrip|].
  split; [reflexivity|]. split; [reflexivity|].
  intros env' command Ha. rewrite send_command_state; [split; reflexivity|].
  exact Ha.
Qed.

Lemma literal_prompt_sets_waiting_witness :
  let a := Sample.running Sample.no_config false [] [] in
  let output :=
    csi (lit "1") [] 109 ++ lit " Overwrite file? [y/N] " in
  input_prompt
    (state (_process_output Sample.lower_ascii (Sample.quiet WriteOk) output a))
  = lit "Overwrite file? [y/N]".
Proof.
  intros a output.
  destruct (literal_prompt_sets_waiting Sample.lower_ascii (Sample.quiet WriteOk)
              output a "[y/N]" (lit " Overwrite file? ") (lit " "))
    as (_ & H & _).
  - left. reflexivity.
  - vm_compute. reflexivity.
  - reflexivity.
  - rewrite H. vm_compute. reflexivity.
Defined.

(* ---------------------------------------------------------------- *)
(** ** Draining the queue *)

Lemma poll_drains (envs : list Env) :
  forall a,
    (forall f, In f (output_queue a) -> length f <= SOFT_CAP) ->
    length (output_queue a) <= OUTPUT_QUEUE_MAXLEN ->
    length (output_queue a) <= length envs ->
    output_queue (state (poll envs a)) = [].
Proof.
  induction envs as [|env envs IH]; intros a Hfit Hmax Hcalls.
  - cbn [length] in Hcalls. cbn [poll ret state fst snd].
    destruct (output_queue a); [reflexivity | cbn in Hcalls; lia].
  - cbn [poll]. rewrite !state_bind. cbn [ret state fst snd].
    destruct (drain_suffix (output_queue a) a env eq_refl Hmax)
      as (taken & rest & Hsplit & _ & Hget & Hprogress).
    rewrite Hget. cbn [state fst snd].
    apply IH; cbn [output_queue set_output_queue].
    + intros f Hf. apply Hfit. rewrite Hsplit. apply in_or_app. now right.
    + rewrite Hsplit, length_app in Hmax. lia.
    + cbn [length] in Hcalls. rewrite Hsplit, length_app in Hcalls.
      destruct (output_queue a) as [|f q] eqn:Hq.
      * destruct taken; [|discriminate]. cbn [app] in Hsplit. subst rest.
        cbn [length]. lia.
      * assert (Hne : taken <> []).
        { apply (Hprogress f q eq_refl). apply Hfit. now left. }
        destruct taken; [contradiction|]. cbn [length] in Hcalls. lia.
Qed.

(** X6.  When no fragment is longer than 4000 characters, every call of
    [get_output] on a non-empty queue takes at least one fragment off it,
    so as many calls as there are fragments leave the queue empty. *)
Theorem get_output_makes_progress (env : Env) (envs : list Env)
    (a : PTYAgent.t) :
  (forall f, In f (output_queue a) -> length f <= SOFT_CAP) ->
  length (output_queue a) <= OUTPUT_QUEUE_MAXLEN ->
  (output_queue a <> [] ->
   length (output_queue (state (get_output env a))) < length (output_queue a))
  /\ (length (output_queue a) <= length envs ->
      output_queue (state (poll envs a)) = []).
Proof.
  intros Hfit Hmax. split; [|now apply poll_drains].
  intros Hne.
  destruct (drain_suffix (output_queue a) a env eq_refl Hmax)
    as (taken & rest & Hsplit & _ & Hget & Hprogress).
  rewrite Hget. cbn [state fst snd output_queue set_output_queue].
  destruct (output_queue a) as [|f q] eqn:Hq; [contradiction|].
  assert (Htaken : taken <> []).
  { apply (Hprogress f q eq_refl). apply Hfit. now left. }
  rewrite Hsplit, length_app. destruct taken; [contradiction|].
  cbn [length]. lia.
Qed.

Lemma get_output_makes_progress_witness :
  let env := Sample.quiet WriteOk in
  let a := Sample.running Sample.no_config false []
             [repeat 120%N 4000; repeat 121%N 4000; lit "end"] in
  output_queue (state (poll [env; env; env] a)) = [].
Proof.
  intros env a.
  destruct (get_output_makes_progress env [env; env; env] a) as [_ H].
  - intros f [<-|[<-|[<-|[]]]]; apply Nat.leb_le; vm_compute; reflexivity.
  - apply Nat.leb_le. vm_compute. reflexivity.
  - apply H. apply Nat.leb_le. vm_compute. reflexivity.
Defined.

(* ---------------------------------------------------------------- *)
(** ** After stop *)

Lemma output_reader_idle (lower : pystr -> pystr) (env : Env)
    (chunks : list pystr) (a : PTYAgent.t) :
  negb (stop_reading a) && is_running_flag a = false ->
  _output_reader lower env chunks a = (tt, a, []).
Proof.
  intros Hcond. destruct chunks as [|output chunks]; [reflexivity|].
  cbn [_output_reader]. unfold bind at 1 2, gets. cbv beta iota.
  now rewrite Hcond.
Qed.

(** X7.  Once [stop] has run, the agent is inert: [send_command] answers
    that the agent is not running, writes nothing and leaves the agent as
    it is (a pending prompt stays pending), and the reader processes no
    further chunk. *)
Theorem stopped_agent_is_inert (lower : pystr -> pystr) (env : Env)
    (a : PTYAgent.t) (command : pystr) (chunks : list pystr)
    (polls : list poll_outcome) (p : poll_outcome) (error_count : nat) :
  is_running_flag (state (PTYAgent.stop a)) = false
  /\ waiting_for_input (state (PTYAgent.stop a)) = waiting_for_input a
  /\ send_command env command (state (PTYAgent.stop a))
     = (lit "Error: Agent not running", state (PTYAgent.stop a),
        [Call_send_command command])
  /\ _output_reader lower env chunks (state (PTYAgent.stop a))
     = (tt, state (PTYAgent.stop a), [])
  /\ reader_loop lower env error_count (p :: polls) (state (PTYAgent.stop a))
     = (LoopCondition, state (PTYAgent.stop a), []).
Proof.
  split; [reflexivity|]. split; [reflexivity|]. split; [|split].
  - apply send_command_not_running. reflexivity.
  - apply output_reader_idle. reflexivity.
  - reflexivity.
Qed.

(* ---------------------------------------------------------------- *)
(** ** What is written for a command *)

Lemma encode_ascii (s : pystr) :
  forallb (fun c => (c <? 128)%N) s = true -> encode s = Some s.
Proof.
  induction s as [|c s IH]; intros Hs; [reflexivity|].
  cbn [forallb] in Hs. apply andb_true_iff in Hs as [Hc Hs].
  cbn [encode]. unfold encode_char. rewrite Hc, (IH Hs). reflexivity.
Qed.

Lemma encode_char_surrogate (c : N) :
  is_surrogate c = true -> encode_char c = None.
Proof.
  unfold is_surrogate, encode_char. intros Hc. rewrite Hc.
  unfold between in Hc. apply andb_true_iff in Hc as [Hlo _].
  apply N.leb_le in Hlo.
  destruct (N.ltb_spec c 128); [lia|].
  destruct (N.ltb_spec c 2048); [lia|]. reflexivity.
Qed.

Lemma encode_surrogate (s : pystr) :
  existsb is_surrogate s = true -> encode s = None.
Proof.
  induction s as [|c s IH]; intros Hs; [discriminate|].
  cbn [existsb] in Hs. cbn [encode].
  destruct (is_surrogate c) eqn:Hc.
  - now rewrite (encode_char_surrogate c Hc).
  - cbn [orb] in Hs. rewrite (IH Hs). destruct (encode_char c); reflexivity.
Qed.

(** X8.  On a started agent whose write succeeds, an ASCII command
    reaches the terminal in one write, character for character, followed
    by CR LF.  A command that holds a lone surrogate cannot be encoded:
    nothing is written and the error text is returned, yet the prompt
    state has been cleared. *)
Theorem send_command_payload (env : Env) (command : pystr) (a : PTYAgent.t)
    (fd : Z) :
  is_running_flag a = true ->
  master_fd a = Some fd ->
  (forallb (fun c => (c <? 128)%N) command = true ->
   os_write env = WriteOk ->
   send_command env command a
   = (lit "Command sent", set_prompt false [] (last_prompt_time a) a,
      [Call_send_command command; OsWrite fd (command ++ CRLF)]))
  /\ (existsb is_surrogate command = true ->
      send_command env command a
      = (lit "Error: " ++ encode_error env,
         set_prompt false [] (last_prompt_time a) a,
         [Call_send_command command])).
Proof.
  intros Hrun Hfd. split.
  - intros Hascii Hw.
    apply send_command_ok; [exact Hrun | exact Hfd | now apply encode_ascii | exact Hw].
  - intros Hsur. unfold send_command.
    cbn [bind gets modify ret emit fst snd app]. rewrite Hrun. cbn [negb].
    rewrite encode_line, (encode_surrogate command Hsur). reflexivity.
Qed.

Lemma send_command_payload_witness :
  let a := Sample.running Sample.no_config true (lit "Continue?") [] in
  events (send_command (Sample.quiet WriteOk) (lit "git status") a)
  = [Call_send_command (lit "git status");
     OsWrite 5 (lit "git status" ++ CRLF)]
  /\ result (send_command (Sample.quiet WriteOk) [104; 56320; 105]%N a)
     = lit "Error: surrogates not allowed".
Proof.
  intros a.
  destruct (send_command_payload (Sample.quiet WriteOk) (lit "git status") a 5)
    as [Hok _]; [reflexivity | reflexivity |].
  destruct (send_command_payload (Sample.quiet WriteOk) [104; 56320; 105]%N a 5)
    as [_ Hbad]; [reflexivity | reflexivity |].
  rewrite Hok by reflexivity. rewrite Hbad by reflexivity.
  split; reflexivity.
Defined.

(* ================================================================== *)
(** * The handlers over a session *)
(* ================================================================== *)

Lemma events_bind {S A B} (m : M S A) (f : A -> M S B) (s : S) :
  events (bind m f s)
  = events (m s) ++ events (f (result (m s)) (state (m s))).
Proof.
  unfold bind, state, result, events. destruct (m s) as [[x s1] e1].
  cbn [fst snd]. destruct (f x s1) as [[y s2] e2]. reflexivity.
Qed.

Lemma on_agent_run {A} (m : M PTYAgent.t A) (b : AgentChatBridge.t) :
  result (on_agent m b) = result (m (agent b))
  /\ state (on_agent m b) = set_agent (state (m (agent b))) b
  /\ events (on_agent m b) = events (m (agent b)).
Proof.
  unfold on_agent, zoom, result, state, events.
  destruct (m (agent b)) as [[x a] e]. repeat split; reflexivity.
Qed.

Lemma count_events_app (p : event -> bool) (l1 l2 : list event) :
  count_events p (l1 ++ l2) = count_events p l1 + count_events p l2.
Proof. unfold count_events. now rewrite filter_app, length_app. Qed.

Lemma eqb_eq (a b : pystr) : eqb a b = true <-> a = b.
Proof.
  revert b. induction a as [|x a IH]; intros [|y b]; cbn [eqb];
    try (split; [discriminate | discriminate]); [tauto|].
  rewrite andb_true_iff, N.eqb_eq, IH. split.
  - intros [-> ->]. reflexivity.
  - intros [= -> ->]. auto.
Qed.

Lemma eqb_neq (a b : pystr) : a <> b -> eqb a b = false.
Proof.
  intros H. destruct (eqb a b) eqn:E; [|reflexivity].
  apply eqb_eq in E. contradiction.
Qed.

Lemma message_unauthorized (lower : pystr -> pystr) (env : Env)
    (update : Update) (b : AgentChatBridge.t) :
  effective_user_id update <> user_id b ->
  handle_message lower env update b = (tt, b, [ReplyText msg_unauthorized]).
Proof.
  intros Hu. unfold handle_message. run_m.
  destruct (Z.eqb_spec (effective_user_id update) (user_id b)); [contradiction|].
  reflexivity.
Qed.

Lemma message_not_running (lower : pystr -> pystr) (env : Env)
    (update : Update) (b : AgentChatBridge.t) :
  effective_user_id update = user_id b ->
  is_running_flag (agent b) = false ->
  handle_message lower env update b = (tt, b, [ReplyText msg_not_running]).
Proof.
  intros Hu Hrun. unfold handle_message. run_m.
  rewrite Hu, Z.eqb_refl. cbn [negb]. run_m. rewrite Hrun, set_agent_same.
  reflexivity.
Qed.

Lemma command_stop (env : Env) (update : Update) (b : AgentChatBridge.t) :
  effective_user_id update = user_id b ->
  text update = lit "/stop" ->
  handle_command env update b
  = (tt, set_agent (state (PTYAgent.stop (agent b))) b,
     [Call_stop; ReplyText msg_stopped]).
Proof.
  intros Hu Ht. unfold handle_command. run_m.
  rewrite Hu, Z.eqb_refl, Ht. cbn [negb].
  change (eqb (lit "/stop") (lit "/start")) with false.
  change (eqb (lit "/stop") (lit "/stop")) with true. cbv iota.
  reflexivity.
Qed.

(** X9.  An update from anyone but the authorized user is answered with
    the "Unauthorized" notice by either handler, and nothing else happens:
    the bridge and the agent are unchanged, no command reaches the agent
    and nothing is started or stopped. *)
Theorem unauthorized_sender_is_ignored (lower : pystr -> pystr) (env : Env)
    (update : Update) (b : AgentChatBridge.t) :
  effective_user_id update <> user_id b ->
  handle_command env update b = (tt, b, [ReplyText msg_unauthorized])
  /\ handle_message lower env update b = (tt, b, [ReplyText msg_unauthorized]).
Proof.
  intros Hu. split;
    [now apply command_unauthorized | now apply message_unauthorized].
Qed.

Lemma unauthorized_sender_is_ignored_witness :
  let b := Sample.bridge (Sample.running Sample.cline_config false [] []) in
  let intruder :=
    {| effective_user_id := 7; text := lit "/stop" |} in
  handle_command (Sample.quiet WriteOk) intruder b
  = (tt, b, [ReplyText msg_unauthorized]).
Proof.
  intros b intruder.
  destruct (unauthorized_sender_is_ignored Sample.lower_ascii
              (Sample.quiet WriteOk) intruder b) as [H _]; [discriminate|].
  exact H.
Defined.

(** X10.  For the authorized user, a command text other than [/start],
    [/stop] and [/status] (the comparison is exact: case, arguments and
    a bot suffix all count) has no effect and gets no reply. *)
Theorem other_command_text_is_ignored (env : Env) (update : Update)
    (b : AgentChatBridge.t) :
  effective_user_id update = user_id b ->
  text update <> lit "/start" ->
  text update <> lit "/stop" ->
  text update <> lit "/status" ->
  handle_command env update b = (tt, b, []).
Proof.
  intros Hu H1 H2 H3. unfold handle_command. run_m.
  rewrite Hu, Z.eqb_refl. cbn [negb].
  rewrite (eqb_neq _ _ H1), (eqb_neq _ _ H2), (eqb_neq _ _ H3). reflexivity.
Qed.

Lemma other_command_text_is_ignored_witness :
  let b := Sample.bridge (PTYAgent.init Sample.cline_config) in
  handle_command (Sample.quiet WriteOk) (Sample.says (lit "/start now")) b
  = (tt, b, []).
Proof.
  intros b.
  apply (other_command_text_is_ignored (Sample.quiet WriteOk)
           (Sample.says (lit "/start now")) b);
    [reflexivity | discriminate | discriminate | discriminate].
Defined.

(** X11.  [/stop] from the authorized user stops the agent whether or not
    it was running, and a free-text message that follows is answered with
    the not-running notice: it does not reach [send_command] and nothing
    is written to the terminal. *)
Theorem stop_then_message_is_refused (lower : pystr -> pystr)
    (env1 env2 : Env) (stop_update message : Update) (b : AgentChatBridge.t) :
  effective_user_id stop_update = user_id b ->
  text stop_update = lit "/stop" ->
  effective_user_id message = user_id b ->
  events (serve lower [ToCommandHandler env1 stop_update;
                       ToMessageHandler env2 message] b)
  = [Call_stop; ReplyText msg_stopped; ReplyText msg_not_running]
  /\ is_running_flag
       (agent (state (serve lower [ToCommandHandler env1 stop_update;
                                   ToMessageHandler env2 message] b)))
     = false.
Proof.
  intros Hu Ht Hm. cbn [serve].
  rewrite events_bind, state_bind, (command_stop env1 stop_update b Hu Ht).
  cbn [result state events fst snd].
  rewrite events_bind, state_bind, message_not_running; [|exact Hm|reflexivity].
  split; reflexivity.
Qed.

Lemma stop_then_message_is_refused_witness :
  let b := Sample.bridge (Sample.running Sample.cline_config false [] []) in
  events (serve Sample.lower_ascii
            [ToCommandHandler (Sample.quiet WriteOk) (Sample.says (lit "/stop"));
             ToMessageHandler (Sample.quiet WriteOk) (Sample.says (lit "ls"))] b)
  = [Call_stop; ReplyText msg_stopped; ReplyText msg_not_running].
Proof.
  intros b.
  destruct (stop_then_message_is_refused Sample.lower_ascii
              (Sample.quiet WriteOk) (Sample.quiet WriteOk)
              (Sample.says (lit "/stop")) (Sample.says (lit "ls")) b)
    as [H _]; [reflexivity | reflexivity | reflexivity |].
  exact H.
Defined.

(* ---------------------------------------------------------------- *)
(** ** The monitor task *)

Lemma send_command_creates_no_task (env : Env) (command : pystr) (a : PTYAgent.t) :
  count_events is_create_task (events (send_command env command a)) = 0.
Proof.
  unfold send_command. open_m.
  destruct (negb (is_running_flag a)); [reflexivity|].
  destruct (encode (command ++ CRLF)); [|reflexivity].
  destruct (master_fd _); [|reflexivity].
  destruct (os_write env); reflexivity.
Qed.

(** [handle_message] neither creates the task nor touches the field. *)
Lemma message_task_count (lower : pystr -> pystr) (env : Env)
    (update : Update) (b : AgentChatBridge.t) :
  count_events is_create_task (events (handle_message lower env update b)) = 0
  /\ output_monitor_task (state (handle_message lower env update b))
     = output_monitor_task b.
Proof.
  destruct (Z.eqb_spec (effective_user_id update) (user_id b)) as [Hu|Hu];
    [|rewrite (message_unauthorized lower env update b Hu); split; reflexivity].
  destruct (is_running_flag (agent b)) eqn:Hrun;
    [|rewrite (message_not_running lower env update b Hu Hrun); split; reflexivity].
  unfold handle_message.
  rewrite events_bind, state_bind. cbn [gets result state events fst snd app].
  rewrite Hu, Z.eqb_refl. cbn [negb].
  rewrite events_bind, state_bind.
  destruct (on_agent_run PTYAgent.is_running b) as (Hr & Hs & He).
  rewrite Hr, Hs, He. cbn [PTYAgent.is_running gets result state events fst snd app].
  rewrite Hrun, set_agent_same. cbn [negb].
  repeat rewrite events_bind, state_bind.
  repeat rewrite count_events_app.
  repeat match goal with
  | |- context [on_agent ?m ?s] =>
      let H1 := fresh in let H2 := fresh in let H3 := fresh in
      destruct (on_agent_run m s) as (H1 & H2 & H3);
      rewrite ?H1, ?H2, ?H3; clear H1 H2 H3
  end.
  rewrite send_command_creates_no_task, output_reader_events, get_output_events.
  cbn [reply_text emit result state events fst snd count_events filter
       is_create_task length output_monitor_task set_agent Nat.add].
  destruct (result (get_output env _)); split; reflexivity.
Qed.

(** [handle_command] creates the task exactly when the field goes from
    unset to set, and never unsets it. *)
Lemma command_task_count (env : Env) (update : Update) (b : AgentChatBridge.t) :
  count_events is_create_task (events (handle_command env update b))
  + task_count b
  = task_count (state (handle_command env update b)).
Proof.
  destruct b as [a uid task].
  unfold handle_command, PTYAgent.start, PTYAgent.stop, task_count. open_m.
  cbv beta iota delta [agent user_id output_monitor_task set_agent set_task].
  destruct (negb (effective_user_id update =? uid)%Z); [reflexivity|].
  destruct (eqb (text update) (lit "/start")).
  - destruct (is_running_flag a); [reflexivity|].
    destruct (spawn env); [|reflexivity].
    destruct task; reflexivity.
  - destruct (eqb (text update) (lit "/stop")); [reflexivity|].
    destruct (eqb (text update) (lit "/status")); reflexivity.
Qed.

Lemma serve_task_count (lower : pystr -> pystr) (inbox : list inbound) :
  forall b,
    count_events is_create_task (events (serve lower inbox b)) + task_count b
    = task_count (state (serve lower inbox b)).
Proof.
  induction inbox as [|[env update|env update] inbox IH]; intros b;
    [reflexivity | |];
    cbn [serve]; rewrite events_bind, state_bind, count_events_app, <- IH.
  - pose proof (command_task_count env update b). lia.
  - destruct (message_task_count lower env update b) as [H0 Ht].
    unfold task_count. rewrite Ht, H0. lia.
Qed.

(** X12.  Over a whole session, whatever updates arrive and whatever the
    world answers, the monitor task is created at most once, and never
    again once the bridge holds a task: a [/start] that follows a [/stop]
    starts the agent again but no new relay loop. *)
Theorem monitor_task_created_at_most_once (lower : pystr -> pystr)
    (inbox : list inbound) (b : AgentChatBridge.t) :
  count_events is_create_task (events (serve lower inbox b)) <= 1
  /\ (output_monitor_task b = true ->
      count_events is_create_task (events (serve lower inbox b)) = 0).
Proof.
  pose proof (serve_task_count lower inbox b) as H.
  unfold task_count in H. revert H.
  destruct (output_monitor_task b);
    destruct (output_monitor_task (state (serve lower inbox b)));
    intros H; split; try discriminate; try intros _; lia.
Qed.

(** [/start], [/stop], [/start]: two starts, one relay loop. *)
Lemma monitor_task_created_at_most_once_witness :
  let env := Sample.quiet WriteOk in
  let session :=
    [ToCommandHandler env (Sample.says (lit "/start"));
     ToCommandHandler env (Sample.says (lit "/stop"));
     ToCommandHandler env (Sample.says (lit "/start"))] in
  let run := serve Sample.lower_ascii session
               (Sample.bridge (PTYAgent.init Sample.cline_config)) in
  count_events is_start (events run) = 2
  /\ count_events is_create_task (events run) <= 1.
Proof.
  intros env session run. split; [vm_compute; reflexivity|].
  apply (monitor_task_created_at_most_once Sample.lower_ascii session
           (Sample.bridge (PTYAgent.init Sample.cline_config))).
Defined.

(** X13.  After a [/start] that succeeds on a stopped agent, [/status]
    reports the agent as running, with the waiting line exactly when a
    prompt was pending; the bridge creates the monitor task unless it
    holds one already. *)
Theorem start_then_status (lower : pystr -> pystr) (env1 env2 : Env)
    (start_update status_update : Update) (b : AgentChatBridge.t)
    (master slave : Z) :
  effective_user_id start_update = user_id b ->
  text start_update = lit "/start" ->
  effective_user_id status_update = user_id b ->
  text status_update = lit "/status" ->
  is_running_flag (agent b) = false ->
  spawn env1 = StartOk master slave ->
  events (serve lower [ToCommandHandler env1 start_update;
                       ToCommandHandler env2 status_update] b)
  = [Call_start; ReplyText msg_started]
    ++ (if output_monitor_task b then [] else [CreateTask])
    ++ [ReplyText (lit "Status: " ++ status_running
                   ++ (if waiting_for_input (agent b) then status_waiting else []))].
Proof.
  intros Hu1 Ht1 Hu2 Ht2 Hrun Hspawn. cbn [serve].
  rewrite events_bind.
  assert (Hstart :
    handle_command env1 start_update b
    = (tt,
       set_task true
         (set_agent (set_running true false (Some master, Some slave) (agent b)) b),
       [Call_start; ReplyText msg_started]
       ++ (if output_monitor_task b then [] else [CreateTask]))).
  { unfold handle_command. run_m.
    rewrite Hu1, Z.eqb_refl, Ht1. cbn [negb].
    change (eqb (lit "/start") (lit "/start")) with true. cbv iota.
    run_m. rewrite Hrun. unfold PTYAgent.start. run_m. rewrite Hspawn. run_m.
    cbn [output_monitor_task set_agent].
    destruct b as [a uid task]. cbn [output_monitor_task].
    destruct task; reflexivity. }
  rewrite Hstart. cbn [result state events fst snd].
  rewrite events_bind. cbn [ret events snd]. rewrite app_nil_r.
  rewrite <- !app_assoc. do 2 f_equal.
  unfold handle_command. run_m.
  cbn [user_id set_task set_agent]. rewrite Hu2, Z.eqb_refl, Ht2. cbn [negb].
  change (eqb (lit "/status") (lit "/start")) with false.
  change (eqb (lit "/status") (lit "/stop")) with false.
  change (eqb (lit "/status") (lit "/status")) with true. cbv iota.
  reflexivity.
Qed.

Lemma start_then_status_witness :
  let env := Sample.quiet WriteOk in
  events (serve Sample.lower_ascii
            [ToCommandHandler env (Sample.says (lit "/start"));
             ToCommandHandler env (Sample.says (lit "/status"))]
            (Sample.bridge (PTYAgent.init Sample.cline_config)))
  = [Call_start; ReplyText msg_started; CreateTask;
     ReplyText (lit "Status: " ++ status_running)].
Proof.
  intros env.
  rewrite (start_then_status Sample.lower_ascii env env
             (Sample.says (lit "/start")) (Sample.says (lit "/status"))
             (Sample.bridge (PTYAgent.init Sample.cline_config)) 5 6);
    reflexivity.
Defined.

(* ================================================================== *)
(** * The monitor's filter and window *)
(* ================================================================== *)

Lemma filter_none {A} (p : A -> bool) (l : list A) :
  forallb (fun x => negb (p x)) l = true -> filter p l = [].
Proof.
  induction l as [|x l IH]; intros H; [reflexivity|].
  cbn [forallb] in H. apply andb_true_iff in H as [Hx Hl].
  apply negb_true_iff in Hx. cbn [filter]. rewrite Hx. now apply IH.
Qed.

(** Without an indicator in the block only the window can filter it. *)
Lemma judge_plain (hash : pystr -> Z) (cfg : AgentConfig) (w : list Z)
    (c : pystr) :
  no_indicator cfg (block (judge hash cfg w c)) = true ->
  filtered (judge hash cfg w c)
  = existsb (Z.eqb (fingerprint (judge hash cfg w c))) w.
Proof.
  unfold judge, no_indicator. cbn [block filtered fingerprint].
  intros H. rewrite (filter_none _ _ H). cbn [length Nat.leb andb].
  now rewrite !orb_false_r.
Qed.

(** X14.  A block in which no UI indicator occurs is suppressed exactly
    when its fingerprint is in the window: new plain output is always
    relayed, whatever its length and the markers it contains. *)
Theorem plain_block_relayed_unless_seen (hash : pystr -> Z)
    (cfg : AgentConfig) (w : list Z) (c : pystr) :
  no_indicator cfg (block (judge hash cfg w c)) = true ->
  relayed (judge hash cfg w c)
  = negb (existsb (Z.eqb (fingerprint (judge hash cfg w c))) w).
Proof.
  intros H. unfold relayed. now rewrite judge_plain.
Qed.

Lemma plain_block_relayed_unless_seen_witness :
  relayed (judge Sample.hash_poly Sample.cline_config []
             (lit "### Done" ++ LF ++ lit "3 files changed")) = true.
Proof.
  rewrite plain_block_relayed_unless_seen; [reflexivity|].
  vm_compute. reflexivity.
Defined.

(* ---------------------------------------------------------------- *)
(** ** The window forgets *)

Lemma window_room : RECENT_MAXLEN = 10.
Proof. reflexivity. Qed.

(** After [m] fingerprints other than [h] were recorded, [h] can only be
    among the elements in front of the newest [min m 10]. *)
Lemma window_push_other (h x : Z) (w : list Z) (m : nat) :
  x <> h ->
  length w <= RECENT_MAXLEN ->
  (exists old new, w = old ++ new /\ ~ In h new /\ Nat.min m 10 <= length new) ->
  length (deque_append RECENT_MAXLEN w x) <= RECENT_MAXLEN
  /\ exists old new,
       deque_append RECENT_MAXLEN w x = old ++ new
       /\ ~ In h new /\ Nat.min (S m) 10 <= length new.
Proof.
  intros Hx Hlen (old & new & -> & Hnew & Hm).
  rewrite window_room in *. unfold deque_append.
  destruct (Nat.ltb_spec (length (old ++ new)) 10) as [Hlt|Hfull].
  - split; [rewrite length_app; cbn [length]; lia|].
    exists old, (new ++ [x]). rewrite app_assoc. split; [reflexivity|].
    split; [|rewrite length_app; cbn [length]; lia].
    intros Hin. apply in_app_or in Hin as [Hin|[Hin|[]]]; [now apply Hnew | now apply Hx].
  - destruct old as [|c old].
    + cbn [app] in *. destruct new as [|d new]; [cbn in Hfull; lia|].
      cbn [tl length] in *.
      split; [rewrite length_app; cbn [length]; lia|].
      exists [], (new ++ [x]). split; [reflexivity|].
      split; [|rewrite length_app; cbn [length]; lia].
      intros Hin. apply in_app_or in Hin as [Hin|[Hin|[]]];
        [apply Hnew; now right | now apply Hx].
    + cbn [app tl length] in *. rewrite length_app in *.
      split; [rewrite !length_app; cbn [length]; lia|].
      exists old, (new ++ [x]). rewrite app_assoc. split; [reflexivity|].
      split; [|rewrite length_app; cbn [length]; lia].
      intros Hin. apply in_app_or in Hin as [Hin|[Hin|[]]]; [now apply Hnew | now apply Hx].
Qed.

Lemma window_forgets (h : Z) (vs : list verdict) :
  forall (w : list Z) (m : nat),
    (forall u, In u vs -> relayed u = true /\ fingerprint u <> h) ->
    length w <= RECENT_MAXLEN ->
    (exists old new, w = old ++ new /\ ~ In h new /\ Nat.min m 10 <= length new) ->
    length (fold_left remember vs w) <= RECENT_MAXLEN
    /\ exists old new,
         fold_left remember vs w = old ++ new
         /\ ~ In h new /\ Nat.min (m + length vs) 10 <= length new.
Proof.
  induction vs as [|v vs IH]; intros w m Hvs Hlen Hinv.
  - cbn [fold_left length]. rewrite Nat.add_0_r. auto.
  - cbn [fold_left length].
    destruct (Hvs v (or_introl eq_refl)) as [Hsent Hfp].
    assert (Hrem : remember w v = deque_append RECENT_MAXLEN w (fingerprint v)).
    { unfold remember, relayed in *. destruct (filtered v); [discriminate|reflexivity]. }
    rewrite Hrem.
    destruct (window_push_other h (fingerprint v) w m Hfp Hlen Hinv) as [Hlen' Hinv'].
    replace (m + S (length vs)) with (S m + length vs) by lia.
    apply IH; [|exact Hlen'|exact Hinv'].
    intros u Hu. apply Hvs. now right.
Qed.

(** X15.  The window holds at most ten fingerprints, so dedup is bounded:
    once ten or more other blocks have been relayed, a plain block whose
    fingerprint was in the window before is relayed again. *)
Theorem window_forgets_after_ten (hash : pystr -> Z) (cfg : AgentConfig)
    (w : list Z) (vs : list verdict) (c : pystr) :
  length w <= RECENT_MAXLEN ->
  10 <= length vs ->
  (forall u, In u vs ->
             relayed u = true
             /\ fingerprint u <> fingerprint (judge hash cfg w c)) ->
  no_indicator cfg (block (judge hash cfg w c)) = true ->
  length (fold_left remember vs w) <= RECENT_MAXLEN
  /\ relayed (judge hash cfg (fold_left remember vs w) c) = true.
Proof.
  intros Hlen Hten Hvs Hplain.
  destruct (window_forgets (fingerprint (judge hash cfg w c)) vs w 0 Hvs Hlen)
    as (Hbound & old & new & Hsplit & Hnew & Hcount).
  { exists w, []. rewrite app_nil_r. cbn. auto. }
  split; [exact Hbound|].
  rewrite plain_block_relayed_unless_seen by exact Hplain.
  apply negb_true_iff.
  destruct (existsb _ (fold_left remember vs w)) eqn:Hex; [|reflexivity].
  apply existsb_exists in Hex as (x & Hx & Heq). apply Z.eqb_eq in Heq.
  change (fingerprint (judge hash cfg (fold_left remember vs w) c))
    with (fingerprint (judge hash cfg w c)) in Heq. subst x.
  rewrite Hsplit in Hx, Hbound. rewrite length_app, window_room in Hbound.
  assert (old = []) by (destruct old; [reflexivity | cbn [length] in Hbound; lia]).
  subst old. now elim Hnew.
Qed.

Lemma window_forgets_after_ten_witness :
  let numbered :=
    map (fun n => judge Sample.hash_poly Sample.cline_config []
                    (lit "step " ++ [N.of_nat n + 48]%N))
        (seq 0 10) in
  let w := [fingerprint (judge Sample.hash_poly Sample.cline_config [] (lit "ready"))] in
  relayed (judge Sample.hash_poly Sample.cline_config w (lit "ready")) = false
  /\ relayed (judge Sample.hash_poly Sample.cline_config
                (fold_left remember numbered w) (lit "ready")) = true.
Proof.
  intros numbered w. split; [vm_compute; reflexivity|].
  destruct (window_forgets_after_ten Sample.hash_poly Sample.cline_config
              w numbered (lit "ready")) as [_ H].
  - apply Nat.leb_le. reflexivity.
  - apply Nat.leb_le. reflexivity.
  - intros u Hu. vm_compute in Hu.
    repeat (destruct Hu as [<-|Hu]; [split; [reflexivity | vm_compute; discriminate]|]).
    destruct Hu.
  - vm_compute. reflexivity.
  - exact H.
Defined.

(* ---------------------------------------------------------------- *)
(** ** The lines of a block *)

Lemma mem_In (x : pystr) (l : list pystr) : mem x l = true <-> In x l.
Proof.
  unfold mem. rewrite existsb_exists. split.
  - intros (y & Hy & Heq). apply eqb_eq in Heq. now subst.
  - intros H. exists x. split; [exact H | now apply eqb_eq].
Qed.

Lemma fromkeys_spec (l : list pystr) :
  forall seen,
    NoDup (fromkeys seen l)
    /\ (forall x, In x (fromkeys seen l) <-> In x l /\ ~ In x seen).
Proof.
  induction l as [|y l IH]; intros seen; cbn [fromkeys].
  - split; [constructor|]. intros x. cbn. tauto.
  - destruct (mem y seen) eqn:Hy.
    + apply mem_In in Hy. destruct (IH seen) as [Hnd Hin].
      split; [exact Hnd|]. intros x. rewrite Hin. cbn [In].
      split; [tauto|]. intros [[<-|H] Hs]; [contradiction | tauto].
    + assert (Hy' : ~ In y seen).
      { intros H. apply mem_In in H. congruence. }
      destruct (IH (y :: seen)) as [Hnd Hin]. split.
      * constructor; [|exact Hnd]. rewrite Hin. cbn [In]. tauto.
      * intros x. cbn [In]. rewrite Hin. cbn [In].
        destruct (list_eq_dec N.eq_dec y x) as [<-|Hne]; tauto.
Qed.

Lemma split_chr_fields (sep : N) (s : pystr) :
  forall acc,
    ~ In sep acc ->
    Forall (fun field => ~ In sep field) (split_chr sep acc s)
    /\ split_chr sep acc s <> [].
Proof.
  induction s as [|c s IH]; intros acc Hacc; cbn [split_chr].
  - split; [|discriminate]. constructor; [|constructor].
    intros H. apply Hacc. now apply in_rev.
  - destruct (N.eqb_spec c sep) as [->|Hne].
    + split; [|discriminate]. constructor.
      * intros H. apply Hacc. now apply in_rev.
      * apply (IH []). intros [].
    + apply IH. intros [H|H]; [congruence | contradiction].
Qed.

Lemma split_chr_skip (sep : N) (x s acc : pystr) :
  ~ In sep x ->
  split_chr sep acc (x ++ s) = split_chr sep (rev x ++ acc) s.
Proof.
  revert acc. induction x as [|c x IH]; intros acc Hx; [reflexivity|].
  cbn [app split_chr].
  destruct (N.eqb_spec c sep) as [->|Hne]; [elim Hx; now left|].
  rewrite IH by (intros H; apply Hx; now right).
  cbn [rev]. now rewrite <- app_assoc.
Qed.

(** Splitting what [join] put together gives the fields back. *)
Lemma split_join (sep : N) (fields : list pystr) :
  fields <> [] ->
  Forall (fun field => ~ In sep field) fields ->
  split_chr sep [] (join [sep] fields) = fields.
Proof.
  induction fields as [|x fields IH]; intros Hne Hall; [contradiction|].
  inversion Hall as [|? ? Hx Hrest]; subst.
  destruct fields as [|y fields].
  - cbn [join]. rewrite <- (app_nil_r x) at 1.
    rewrite split_chr_skip by exact Hx. cbn [split_chr].
    now rewrite app_nil_r, rev_involutive.
  - change (join [sep] (x :: y :: fields))
      with (x ++ [sep] ++ join [sep] (y :: fields)).
    rewrite split_chr_skip by exact Hx. cbn [app split_chr].
    rewrite N.eqb_refl, app_nil_r, rev_involutive.
    f_equal. apply IH; [discriminate | exact Hrest].
Qed.

Lemma In_lstrip (c : N) (s : pystr) : In c (lstrip s) -> In c s.
Proof.
  induction s as [|d s IH]; cbn [lstrip]; [tauto|].
  destruct (is_space d); [intros H; right; now apply IH | tauto].
Qed.

Lemma In_strip (c : N) (s : pystr) : In c (strip s) -> In c s.
Proof.
  unfold strip, rstrip. intros H.
  apply in_rev, In_lstrip, in_rev in H. now apply In_lstrip.
Qed.

Lemma lstrip_head (s : pystr) :
  match lstrip s with [] => True | c :: _ => is_space c = false end.
Proof.
  induction s as [|c s IH]; cbn [lstrip]; [exact I|].
  destruct (is_space c) eqn:Hc; [exact IH | exact Hc].
Qed.

Lemma lstrip_idempotent (s : pystr) : lstrip (lstrip s) = lstrip s.
Proof.
  pose proof (lstrip_head s) as H.
  destruct (lstrip s) as [|c t]; [reflexivity|]. cbn [lstrip]. now rewrite H.
Qed.

Lemma strip_idempotent (s : pystr) : strip (strip s) = strip s.
Proof.
  unfold strip. set (u := lstrip s).
  assert (Hfix : lstrip (rstrip u) = rstrip u).
  { pose proof (lstrip_head s) as H. fold u in H.
    destruct u as [|c t]; [reflexivity|].
    unfold rstrip. cbn [rev].
    rewrite (lstrip_app_solid (rev t) [] c H), rev_app_distr.
    cbn [rev app lstrip]. now rewrite H. }
  rewrite Hfix. unfold rstrip.
  now rewrite rev_involutive, lstrip_idempotent.
Qed.

(** X16.  The block the monitor judges (and sends) splits at newlines
    into exactly the distinct trimmed lines of the cleaned output, in the
    order of their first occurrence: no line of the block occurs twice,
    and every line is free of leading and trailing whitespace. *)
Theorem block_lines_are_distinct (hash : pystr -> Z) (cfg : AgentConfig)
    (w : list Z) (c : pystr) :
  split_chr 10 [] (block (judge hash cfg w c))
  = fromkeys [] (map strip (split_chr 10 [] (strip_ansi_codes c)))
  /\ NoDup (split_chr 10 [] (block (judge hash cfg w c)))
  /\ Forall (fun line => strip line = line)
            (split_chr 10 [] (block (judge hash cfg w c))).
Proof.
  set (lines := map strip (split_chr 10 [] (strip_ansi_codes c))).
  destruct (fromkeys_spec lines []) as [Hnd Hin].
  destruct (split_chr_fields 10 (strip_ansi_codes c) []) as [Hfields Hne];
    [intros []|].
  assert (Hsplit : split_chr 10 [] (block (judge hash cfg w c)) = fromkeys [] lines).
  { unfold judge. cbn [block]. fold lines. unfold LF. apply split_join.
    - destruct (split_chr 10 [] (strip_ansi_codes c)) as [|x l] eqn:E;
        [contradiction|].
      unfold lines. cbn [map fromkeys mem existsb]. discriminate.
    - apply Forall_forall. intros line Hline.
      apply Hin in Hline as [Hline _]. unfold lines in Hline.
      apply in_map_iff in Hline as (x & <- & Hx).
      rewrite Forall_forall in Hfields. intros H.
      apply (Hfields x Hx). now apply In_strip. }
  rewrite Hsplit. split; [reflexivity|]. split; [exact Hnd|].
  apply Forall_forall. intros line Hline.
  apply Hin in Hline as [Hline _]. unfold lines in Hline.
  apply in_map_iff in Hline as (x & <- & _). apply strip_idempotent.
Qed.

(* ================================================================== *)
(** * The reader loop *)
(* ================================================================== *)

Section Reader.

Variable lower : pystr -> pystr.
Variable env : Env.

Lemma reader_loop_pass (error_count : nat) (p : poll_outcome)
    (polls : list poll_outcome) (a : PTYAgent.t) :
  stop_reading a = false -> is_running_flag a = true ->
  reader_loop lower env error_count (p :: polls) a
  = match p with
    | Idle => reader_loop lower env error_count polls a
    | Data output =>
        bind (_process_output lower env output)
             (fun _ => reader_loop lower env 0 polls) a
    | Eof => (EndOfStream, a, [])
    | Raises =>
        if 10 <? S error_count then (TooManyErrors, a, [])
        else reader_loop lower env (S error_count) polls a
    end.
Proof.
  intros Hstop Hrun. cbn [reader_loop]. unfold bind at 1 2, gets.
  cbv beta iota. rewrite Hstop, Hrun. cbn [negb andb].
  destruct p as [|output| |]; try reflexivity.
  - destruct (reader_loop lower env error_count polls a) as [[r s] e]. reflexivity.
  - destruct (bind _ _ a) as [[r s] e]. reflexivity.
  - destruct (10 <? S error_count); [reflexivity|].
    destruct (reader_loop lower env (S error_count) polls a) as [[r s] e].
    reflexivity.
Qed.

Lemma reader_loop_idle (error_count : nat) (polls : list poll_outcome)
    (a : PTYAgent.t) :
  negb (stop_reading a) && is_running_flag a = false ->
  polls <> [] ->
  reader_loop lower env error_count polls a = (LoopCondition, a, []).
Proof.
  intros Hcond Hne. destruct polls as [|p polls]; [contradiction|].
  cbn [reader_loop]. unfold bind at 1 2, gets. cbv beta iota.
  now rewrite Hcond.
Qed.

Lemma reader_loop_errors (k : nat) :
  forall (error_count : nat) (polls : list poll_outcome) (a : PTYAgent.t),
    stop_reading a = false -> is_running_flag a = true ->
    (error_count + k <= 10 ->
     reader_loop lower env error_count (repeat Raises k ++ polls) a
     = reader_loop lower env (error_count + k) polls a)
    /\ (10 < error_count + k -> 0 < k ->
        reader_loop lower env error_count (repeat Raises k ++ polls) a
        = (TooManyErrors, a, [])).
Proof.
  induction k as [|k IH]; intros error_count polls a Hstop Hrun.
  - split; [|lia]. intros _. cbn [repeat app]. now rewrite Nat.add_0_r.
  - cbn [repeat app]. rewrite (reader_loop_pass _ _ _ _ Hstop Hrun).
    destruct (IH (S error_count) polls a Hstop Hrun) as [Hfew Hmany].
    destruct (Nat.ltb_spec 10 (S error_count)) as [Hover|Hunder].
    + split; [lia | reflexivity].
    + split; intros H.
      * rewrite Hfew by lia. f_equal. lia.
      * intros _. apply Hmany; lia.
Qed.

(** The reader leaves the two loop flags alone. *)
Lemma reader_loop_flags (polls : list poll_outcome) :
  forall (error_count : nat) (a : PTYAgent.t),
    is_running_flag (state (reader_loop lower env error_count polls a))
    = is_running_flag a
    /\ stop_reading (state (reader_loop lower env error_count polls a))
       = stop_reading a.
Proof.
  induction polls as [|p polls IH]; intros error_count a; [split; reflexivity|].
  destruct (negb (stop_reading a) && is_running_flag a) eqn:Hcond.
  - apply andb_true_iff in Hcond as [Hstop Hrun]. apply negb_true_iff in Hstop.
    rewrite (reader_loop_pass _ _ _ _ Hstop Hrun).
    destruct p as [|output| |].
    + apply IH.
    + rewrite state_bind.
      destruct (process_output_flags lower env output a) as [H1 H2].
      destruct (IH 0 (state (_process_output lower env output a))) as [H3 H4].
      rewrite H3, H4. split; assumption.
    + split; reflexivity.
    + destruct (10 <? S error_count); [split; reflexivity | apply IH].
  - rewrite reader_loop_idle; [split; reflexivity | exact Hcond | discriminate].
Qed.

Lemma reader_loop_cut (before after : list poll_outcome) :
  forall (error_count : nat) (a : PTYAgent.t),
    reader_loop lower env error_count (before ++ Eof :: after) a
    = reader_loop lower env error_count (before ++ [Eof]) a.
Proof.
  induction before as [|p before IH]; intros error_count a.
  - cbn [app reader_loop]. reflexivity.
  - cbn [app]. destruct (negb (stop_reading a) && is_running_flag a) eqn:Hcond.
    + apply andb_true_iff in Hcond as [Hstop Hrun]. apply negb_true_iff in Hstop.
      rewrite !(reader_loop_pass _ _ _ _ Hstop Hrun).
      destruct p as [|output| |].
      * apply IH.
      * unfold bind. destruct (_process_output lower env output a) as [[u a1] e1].
        now rewrite IH.
      * reflexivity.
      * destruct (10 <? S error_count); [reflexivity | apply IH].
    + rewrite !reader_loop_idle; try exact Hcond; try discriminate. reflexivity.
Qed.

(** X17.  The reader loop tolerates up to ten read errors in a row and
    gives up at the eleventh, leaving what is read afterwards unprocessed;
    a successful read puts the count back to zero, so ten more errors are
    tolerated after it. *)
Theorem reader_loop_error_threshold (a : PTYAgent.t) (error_count k : nat)
    (output : pystr) (polls : list poll_outcome) :
  stop_reading a = false ->
  is_running_flag a = true ->
  (error_count + k <= 10 ->
   reader_loop lower env error_count (repeat Raises k ++ Data output :: polls) a
   = bind (_process_output lower env output)
          (fun _ => reader_loop lower env 0 polls) a)
  /\ (10 < error_count + k -> 0 < k ->
      reader_loop lower env error_count (repeat Raises k ++ polls) a
      = (TooManyErrors, a, [])).
Proof.
  intros Hstop Hrun. split.
  - intros Hfew.
    destruct (reader_loop_errors k error_count (Data output :: polls) a Hstop Hrun)
      as [H _].
    rewrite H by exact Hfew. now rewrite (reader_loop_pass _ _ _ _ Hstop Hrun).
  - now apply reader_loop_errors.
Qed.

(** X18.  At end of stream the reader loop stops for good: whatever would
    be read later is never processed.  The loop never changes
    [is_running_flag] or [stop_reading], so after the end of the stream
    the agent still reports itself as running. *)
Theorem reader_loop_end_of_stream (a : PTYAgent.t) (error_count : nat)
    (before after : list poll_outcome) :
  reader_loop lower env error_count (before ++ Eof :: after) a
  = reader_loop lower env error_count (before ++ [Eof]) a
  /\ is_running_flag
       (state (reader_loop lower env error_count (before ++ Eof :: after) a))
     = is_running_flag a
  /\ stop_reading
       (state (reader_loop lower env error_count (before ++ Eof :: after) a))
     = stop_reading a.
Proof.
  split; [apply reader_loop_cut | apply reader_loop_flags].
Qed.

End Reader.

Lemma reader_loop_error_threshold_witness :
  let a := Sample.running Sample.no_config false [] [] in
  let env := Sample.quiet WriteOk in
  output_queue
    (state (reader_loop Sample.lower_ascii env 0
              (repeat Raises 10 ++ Data (lit "alive") :: repeat Raises 10
               ++ [Data (lit "again")]) a))
  = [lit "alive"; lit "again"]
  /\ reader_loop Sample.lower_ascii env 0
       (repeat Raises 11 ++ [Data (lit "lost")]) a
     = (TooManyErrors, a, []).
Proof.
  intros a env.
  destruct (reader_loop_error_threshold Sample.lower_ascii env a 0 10
              (lit "alive") (repeat Raises 10 ++ [Data (lit "again")]))
    as [Hfew _]; [reflexivity | reflexivity |].
  destruct (reader_loop_error_threshold Sample.lower_ascii env a 0 11
              (lit "lost") [Data (lit "lost")])
    as [_ Hmany]; [reflexivity | reflexivity |].
  split.
  - rewrite Hfew by (apply Nat.leb_le; reflexivity). vm_compute. reflexivity.
  - apply Hmany; apply Nat.ltb_lt; reflexivity.
Defined.

(* ================================================================== *)
(** * A message and its reply *)
(* ================================================================== *)





